(** * map-check: the GPS trajectory pipeline of [src/App.jsx]

    A shallow embedding of the trajectory-refinement and route-reconciliation
    code of [src/App.jsx] (accuracy filter, Kalman smoothing, zigzag removal,
    thinning, distance accumulation, snap and chunked directions requests,
    polyline decoding), and the properties its specification states.

    JavaScript numbers are IEEE-754 binary64 values: they are modelled by
    Rocq's primitive [float], whose operations are the binary64 ones.
    JavaScript strings are modelled by [string] (code units below 256). *)

From Stdlib Require Import ZArith QArith Qround Lia Bool List Ascii String DecimalString Floats.
From stdpp Require Import base option list.
Import ListNotations.

Local Open Scope string_scope.
Local Open Scope Z_scope.
Set Warnings "-inexact-float".

(** ** JavaScript values the code works with *)

Module Js.

(** A JavaScript number. *)
Definition number := float.

(** What a call completes with: a value, or a thrown error. *)
Inductive error := Error (name : string).

Inductive completion (A : Type) :=
| Normal (a : A)
| Throw (e : error).
Arguments Normal {A} a.
Arguments Throw {A} e.

(** [ToInt32] on an integer: wrap into [-2^31, 2^31). *)
Definition to_int32 (z : Z) : Z := (z + 2^31) mod 2^32 - 2^31.

(** The integer-valued numbers the decoder computes with are kept as [Z];
    [None] is [NaN] (what [charCodeAt] gives past the end of the string). *)
Definition int_or_nan := option Z.

(** [s.charCodeAt(i)] *)
Definition charCodeAt (s : string) (i : nat) : int_or_nan :=
  match String.get i s with
  | Some c => Some (Z.of_nat (nat_of_ascii c))
  | None => None
  end.

(** [x - k] for an integer constant [k]: [NaN - k] is [NaN]. *)
Definition minus_const (x : int_or_nan) (k : Z) : int_or_nan :=
  match x with Some z => Some (z - k) | None => None end.

(** [x & k]: [ToInt32(NaN)] is [0]. *)
Definition bit_and (x : int_or_nan) (k : Z) : Z :=
  match x with
  | Some z => to_int32 (Z.land (to_int32 z) (to_int32 k))
  | None => 0
  end.

(** [x << n]: the shift count is taken modulo 32, the result wraps to int32. *)
Definition shift_left (x n : Z) : Z := to_int32 (Z.shiftl (to_int32 x) (n mod 32)).

(** [x | y] on int32 values. *)
Definition bit_or (x y : Z) : Z := to_int32 (Z.lor (to_int32 x) (to_int32 y)).

(** [x >> 1]: the sign-propagating shift. *)
Definition shift_right1 (x : Z) : Z := Z.shiftr (to_int32 x) 1.

(** [~x] *)
Definition bit_not (x : Z) : Z := to_int32 (Z.lnot (to_int32 x)).

(** [x >= k] for an integer constant [k]: false on [NaN]. *)
Definition ge_const (x : int_or_nan) (k : Z) : bool :=
  match x with Some z => k <=? z | None => false end.

(** The number that an int32 value is (exact: every int32 is a binary64). *)
Definition of_int32 (z : Z) : number :=
  if z <? 0 then (- of_uint63 (Uint63.of_Z (- z)))%float
  else of_uint63 (Uint63.of_Z z).

(** *** Numbers and their decimal text

    [Number.prototype.toString], [Number.prototype.toFixed] and [parseFloat],
    computed on the exact rational value of a binary64. Where the language
    leaves a choice to the engine, this is what the engines do: the decimal
    of [toString] closest to the number among the shortest ones, and the
    correctly rounded binary64 for a literal of any number of digits. *)

Definition Qlt_bool (a b : Q) : bool := negb (Qle_bool b a).

(** [10^j], for any integer [j]. *)
Definition pow10 (j : Z) : Q := Qpower (inject_Z 10) j.

(** The real value [m * 2^e] of a finite binary64. *)
Definition dyadic (m : Z) (e : Z) : Q := (inject_Z m * Qpower (inject_Z 2) e)%Q.

(** The decimal digits of a natural number. *)
Definition digits (n : Z) : string := NilZero.string_of_uint (N.to_uint (Z.to_N n)).

Definition ndigits (n : Z) : Z := Z.of_nat (String.length (digits n)).

Fixpoint zeros (n : nat) : string :=
  match n with O => "" | S n' => String "0" (zeros n') end.

(** For [v > 0], the [n] with [10^(n-1) <= v < 10^n]. *)
Definition decimal_exponent (v : Q) : Z :=
  let t := ndigits (Qnum v) - ndigits (Zpos (Qden v)) in
  if Qle_bool (pow10 t) v then t + 1 else t.

(** The reals that round to the binary64 [m * 2^e]: an interval with its
    ends, taken in when [m] is even (ties go to the even mantissa). *)
Definition rounds_to (m : positive) (e : Z) (c : Q) : bool :=
  let v := dyadic (Zpos m) e in
  let hi := (v + dyadic 1 (e - 1))%Q in
  let lo := if Pos.eqb m (2 ^ 52) && (-1074 <? e)
            then (v - dyadic 1 (e - 2))%Q else (v - dyadic 1 (e - 1))%Q in
  if Z.even (Zpos m) then Qle_bool lo c && Qle_bool c hi
  else Qlt_bool lo c && Qlt_bool c hi.

(** The shortest decimal [s * 10^(n-k)] with [k] digits that reads back as
    the binary64 [m * 2^e]; among several with [k] digits the closest to it,
    and the even one of two equally close. [more] counts the digit counts
    still to try ([17] always suffice for a binary64). *)
Fixpoint shortest_from (more : nat) (k : Z) (m : positive) (e n0 : Z) : Z * Z :=
  let v := dyadic (Zpos m) e in
  let scale := pow10 (n0 - k) in
  let s_lo := Qfloor (v / scale) in
  let s_hi := s_lo + 1 in
  let c_lo := (inject_Z s_lo * scale)%Q in
  let c_hi := (inject_Z s_hi * scale)%Q in
  let nearest :=
    let d_lo := (v - c_lo)%Q in
    let d_hi := (c_hi - v)%Q in
    if Qlt_bool d_lo d_hi then s_lo
    else if Qlt_bool d_hi d_lo then s_hi
    else if Z.even s_lo then s_lo else s_hi in
  match rounds_to m e c_lo, rounds_to m e c_hi with
  | true, true => (nearest, k)
  | true, false => (s_lo, k)
  | false, true => (s_hi, k)
  | false, false =>
      match more with
      | O => (s_lo, k)
      | S more' => shortest_from more' (k + 1) m e n0
      end
  end.

(** The integers [s], [k], [n] of [Number::toString]. *)
Definition shortest_decimal (m : positive) (e : Z) : Z * Z * Z :=
  let n0 := decimal_exponent (dyadic (Zpos m) e) in
  let '(s, k) := shortest_from 16 1 m e n0 in
  if s =? 10 ^ k then (10 ^ (k - 1), k, n0 + 1) else (s, k, n0).

(** The text of the positive number [s * 10^(n-k)], [s] having [k] digits. *)
Definition format_decimal (s k n : Z) : string :=
  let ds := digits s in
  if (-5 <=? n) && (n <=? 21) then
    if k <=? n then ds ++ zeros (Z.to_nat (n - k))
    else if 0 <? n then
      substring 0 (Z.to_nat n) ds ++ "." ++ substring (Z.to_nat n) (Z.to_nat (k - n)) ds
    else "0." ++ zeros (Z.to_nat (- n)) ++ ds
  else
    let ex := (if n - 1 <? 0 then "-" else "+") ++ digits (Z.abs (n - 1)) in
    if k =? 1 then ds ++ "e" ++ ex
    else substring 0 1 ds ++ "." ++ substring 1 (Z.to_nat (k - 1)) ds ++ "e" ++ ex.

(** [x.toString()] *)
Definition Number_toString (x : number) : string :=
  match Prim2SF x with
  | S754_nan => "NaN"
  | S754_zero _ => "0"
  | S754_infinity s => if s then "-Infinity" else "Infinity"
  | S754_finite s m e =>
      let '(d, k, n) := shortest_decimal m e in
      (if s then "-" else "") ++ format_decimal d k n
  end.

(** [x.toFixed(f)], for [0 <= f <= 100]. *)
Definition toFixed (x : number) (f : nat) : string :=
  match Prim2SF x with
  | S754_nan => "NaN"
  | S754_infinity s => if s then "-Infinity" else "Infinity"
  | S754_zero _ => if (f =? 0)%nat then "0" else "0." ++ zeros f
  | S754_finite s m e =>
      let v := dyadic (Zpos m) e in
      (if s then "-" else "") ++
      (if Qle_bool (pow10 21) v then Number_toString (abs x)
       else
         let n := Qfloor (v * pow10 (Z.of_nat f) + (1 # 2))%Q in
         let ds := digits n in
         if (f =? 0)%nat then ds
         else
           let ds := zeros (S f - String.length ds) ++ ds in
           let k := String.length ds in
           substring 0 (k - f) ds ++ "." ++ substring (k - f) f ds)
  end.

(** The binary64 nearest to the real [v >= 0] (ties to even, overflow to
    infinity), with the sign [neg]. *)
Definition round_to_number (neg : bool) (v : Q) : number :=
  let num := Qnum v in
  let den := Zpos (Qden v) in
  if num <=? 0 then (if neg then neg_zero else zero)
  else
    let k := Z.max 0 (66 + Z.log2 den - Z.log2 num) in
    let '(q, r) := Z.div_eucl (Z.shiftl num k) den in
    let sticky := if r =? 0 then 0 else 1 in
    SF2Prim (binary_round prec emax neg (Z.to_pos (2 * q + sticky)) (- k - 1)).

Definition is_digit (c : ascii) : bool :=
  let n := nat_of_ascii c in ((48 <=? n) && (n <=? 57))%nat.

(** The characters [TrimString] removes, among the code units below 256. *)
Definition is_space (c : ascii) : bool :=
  let n := nat_of_ascii c in
  ((9 <=? n) && (n <=? 13) || (n =? 32) || (n =? 160))%nat.

Fixpoint trim_start (cs : list ascii) : list ascii :=
  match cs with
  | c :: cs' => if is_space c then trim_start cs' else cs
  | [] => []
  end.

(** The leading decimal digits of [cs]: their value on top of [acc], how
    many they are, and what follows them. *)
Fixpoint take_digits (cs : list ascii) (acc : Z) (n : nat) : Z * nat * list ascii :=
  match cs with
  | c :: cs' =>
      if is_digit c
      then take_digits cs' (10 * acc + (Z.of_nat (nat_of_ascii c) - 48)) (S n)
      else (acc, n, cs)
  | [] => (acc, n, [])
  end.

(** The value of an [ExponentPart] in front of [cs], [0] when there is none. *)
Definition exponent_part (cs : list ascii) : Z :=
  match cs with
  | c :: cs' =>
      if (Ascii.eqb c "e" || Ascii.eqb c "E")%bool then
        match cs' with
        | "-"%char :: ds => let '(v, n, _) := take_digits ds 0 O in - v
        | "+"%char :: ds => let '(v, n, _) := take_digits ds 0 O in v
        | ds => let '(v, n, _) := take_digits ds 0 O in v
        end
      else 0
  | [] => 0
  end.

Fixpoint starts_with (word cs : list ascii) : bool :=
  match word, cs with
  | [], _ => true
  | w :: word', c :: cs' => Ascii.eqb w c && starts_with word' cs'
  | _ :: _, [] => false
  end.

(** The longest prefix of [cs] that is a [StrUnsignedDecimalLiteral], as the
    number it denotes with the sign [neg]; [NaN] when there is none. *)
Definition unsigned_literal (neg : bool) (cs : list ascii) : number :=
  if starts_with (list_ascii_of_string "Infinity") cs
  then (if neg then neg_infinity else infinity)
  else
    let '(int, ni, rest) := take_digits cs 0 O in
    match rest with
    | "."%char :: rest' =>
        let '(mant, nf, rest'') := take_digits rest' int O in
        if ((ni =? 0) && (nf =? 0))%nat then nan
        else round_to_number neg
               (inject_Z mant * pow10 (exponent_part rest'' - Z.of_nat nf))%Q
    | _ =>
        if (ni =? 0)%nat then nan
        else round_to_number neg (inject_Z int * pow10 (exponent_part rest))%Q
    end.

(** [parseFloat(s)] on a string. *)
Definition parseFloat (s : string) : number :=
  match trim_start (list_ascii_of_string s) with
  | "-"%char :: cs => unsigned_literal true cs
  | "+"%char :: cs => unsigned_literal false cs
  | cs => unsigned_literal false cs
  end.

(** [n % d] on numbers: the exact remainder, with the sign of [n]. *)
Definition remainder (n d : number) : number :=
  match Prim2SF n, Prim2SF d with
  | S754_nan, _ | _, S754_nan => nan
  | S754_infinity _, _ => nan
  | _, S754_infinity _ => n
  | _, S754_zero _ => nan
  | S754_zero _, _ => n
  | S754_finite sn mn en, S754_finite _ md ed =>
      let vn := dyadic (Zpos mn) en in
      let vd := dyadic (Zpos md) ed in
      round_to_number sn (vn - inject_Z (Qfloor (vn / vd)) * vd)%Q
  end.

(** [!x] on a number: true on [0], [-0] and [NaN]. *)
Definition falsy (x : number) : bool := (is_zero x || is_nan x)%bool.

(** [isFinite(x)] on a number: neither [NaN] nor an infinity. *)
Definition isFinite (x : number) : bool :=
  match Prim2SF x with
  | S754_zero _ | S754_finite _ _ _ => true
  | _ => false
  end.

(** The other values the code passes around without looking into them
    (time stamps). *)
Inductive value :=
| Undefined
| Null
| Num (n : number)
| Str (s : string).

(** [for (let i = lo; i < hi; i++) body], for a body that leaves [i] and
    the bounds alone. *)
Definition for_range {S : Type} (lo hi : nat) (body : nat -> S -> S) (s : S) : S :=
  fold_left (fun s i => body i s) (seq lo (hi - lo)) s.

(** [parts.join(sep)] *)
Fixpoint join (sep : string) (parts : list string) : string :=
  match parts with
  | [] => ""
  | [x] => x
  | x :: rest => x ++ sep ++ join sep rest
  end.

(** The [Math] functions whose results the language leaves to the engine. *)
Class MathLib := {
  Math_sin : number -> number;
  Math_cos : number -> number;
  Math_sqrt : number -> number;
  Math_atan2 : number -> number -> number
}.

(** [Math.PI] *)
Definition Math_PI : number := 3.141592653589793%float.

End Js.

Import Js.

(** ** The point sequences *)

(** A point as the pipeline carries it: both coordinates as text. *)
Record point := {
  latitude : string;
  longitude : string;
  createdAt : value
}.

(** [points[i]] *)
Definition at_index {A : Type} (xs : list A) (i : nat) : option A := xs !! i.

(** ** Utility functions  (App.jsx, lines 15-35) *)

Section Geometry.
Context `{MathLib}.
Local Open Scope float_scope.

Definition toRadians (degrees : number) : number := degrees * Math_PI / 180.
Definition toDegrees (radians : number) : number := radians * 180 / Math_PI.

Definition calculateDistance (lat1 lon1 lat2 lon2 : number) : number :=
  let R := 6371000 in
  let dLat := toRadians (lat2 - lat1) in
  let dLon := toRadians (lon2 - lon1) in
  let a := Math_sin (dLat / 2) * Math_sin (dLat / 2) +
           Math_cos (toRadians lat1) * Math_cos (toRadians lat2) *
           Math_sin (dLon / 2) * Math_sin (dLon / 2) in
  let c := 2 * Math_atan2 (Math_sqrt a) (Math_sqrt (1 - a)) in
  R * c.

Definition calculateBearing (lat1 lon1 lat2 lon2 : number) : number :=
  let dLon := toRadians (lon2 - lon1) in
  let y := Math_sin dLon * Math_cos (toRadians lat2) in
  let x := Math_cos (toRadians lat1) * Math_sin (toRadians lat2) -
           Math_sin (toRadians lat1) * Math_cos (toRadians lat2) * Math_cos dLon in
  remainder (toDegrees (Math_atan2 y x) + 360) 360.

(** [calculateDistance] between two points, each coordinate read with
    [parseFloat], as every caller does. *)
Definition distance_between (a b : point) : number :=
  calculateDistance (parseFloat (latitude a)) (parseFloat (longitude a))
                    (parseFloat (latitude b)) (parseFloat (longitude b)).

Definition bearing_between (a b : point) : number :=
  calculateBearing (parseFloat (latitude a)) (parseFloat (longitude a))
                   (parseFloat (latitude b)) (parseFloat (longitude b)).

(** ** [removeZigzags]  (App.jsx, lines 78-105) *)

(** [diff] of the loop body: the change of bearing at [curr]. *)
Definition bearing_change (prev curr next : point) : number :=
  let bearing1 := bearing_between prev curr in
  let bearing2 := bearing_between curr next in
  let diff := abs (bearing2 - bearing1) in
  if 180 <? diff then 360 - diff else diff.

(** The body of the loop at index [i]. Every index it reads is within the
    array (the last match arm is never taken). *)
Definition zigzag_body (points : list point) (threshold : number)
    (i : nat) (result : list point) : list point :=
  match at_index points (i - 1), at_index points i, at_index points (i + 1) with
  | Some prev, Some curr, Some next =>
      if bearing_change prev curr next <? threshold then result ++ [curr] else result
  | _, _, _ => result
  end.

(** [threshold = 60]: the default stands in when the argument is left out. *)
Definition removeZigzags (points : list point) (threshold : option number) : list point :=
  let threshold := default 60 threshold in
  if (length points <? 3)%nat then points
  else
    let result := option_list (at_index points 0) in
    let result := for_range 1 (length points - 1) (zigzag_body points threshold) result in
    result ++ option_list (at_index points (length points - 1)).

(** The shortest angular difference of the specification between two
    bearings: [diff = |bearing2 - bearing1|], replaced by [360 - diff] when
    [diff > 180]. *)
Definition shortest_angular_difference (bearing1 bearing2 : number) : number :=
  let diff := abs (bearing2 - bearing1) in
  if 180 <? diff then 360 - diff else diff.

(** The turn of the specification at the interior index [i]: the shortest
    angular difference between bearing(prev, curr) and bearing(curr, next),
    when [i - 1], [i] and [i + 1] are indices of [points]. *)
Definition turn_at (points : list point) (i : nat) : option number :=
  match at_index points (i - 1), at_index points i, at_index points (i + 1) with
  | Some prev, Some curr, Some next =>
      Some (shortest_angular_difference
              (calculateBearing (parseFloat (latitude prev)) (parseFloat (longitude prev))
                                (parseFloat (latitude curr)) (parseFloat (longitude curr)))
              (calculateBearing (parseFloat (latitude curr)) (parseFloat (longitude curr))
                                (parseFloat (latitude next)) (parseFloat (longitude next))))
  | _, _, _ => None
  end.

(** The interior points the specification keeps: those that turn by less
    than the threshold. *)
Definition gentle_turn (points : list point) (threshold : number) (i : nat) : bool :=
  match turn_at points i with
  | Some diff => diff <? threshold
  | None => false
  end.

(** ** [thinPoints]  (App.jsx, lines 108-124) *)

(** The body of the loop at index [i]; [last] is [result[result.length - 1]]. *)
Definition thin_body (points : list point) (minDistance : number)
    (i : nat) (result : list point) : list point :=
  match at_index result (length result - 1), at_index points i with
  | Some last, Some current =>
      let dist := distance_between last current in
      if minDistance <=? dist then result ++ [current] else result
  | _, _ => result
  end.

(** [minDistance = 40]: the default stands in when the argument is left out. *)
Definition thinPoints (points : list point) (minDistance : option number) : list point :=
  let minDistance := default 40 minDistance in
  if (length points <? 2)%nat then points
  else
    let result := option_list (at_index points 0) in
    for_range 1 (length points) (thin_body points minDistance) result.

(** The greedy decimation of the specification: [kept] is the last point
    kept so far. *)
Fixpoint thin_from (minDistance : number) (kept : point) (rest : list point) : list point :=
  match rest with
  | [] => []
  | current :: rest' =>
      if minDistance <=? distance_between kept current
      then current :: thin_from minDistance current rest'
      else thin_from minDistance kept rest'
  end.

Definition greedy_thinning (points : list point) (minDistance : number) : list point :=
  match points with
  | [] => []
  | first :: rest => first :: thin_from minDistance first rest
  end.


End Geometry.

(** ** [applyKalmanFilter]  (App.jsx, lines 38-75) *)

Module Kalman.
Local Open Scope float_scope.

Definition q : number := 0.00001.
Definition r : number := 0.0001.

(** The variables of the loop: the one covariance [p], the two estimates,
    and the output built so far. *)
Record state := {
  p : number;
  xLat : number;
  xLng : number;
  smoothed : list point
}.

(** The body of [for (const point of points)]. *)
Definition step (st : state) (point : point) : state :=
  let measurementLat := parseFloat (latitude point) in
  let measurementLng := parseFloat (longitude point) in
  (* Latitude filter *)
  let p := p st + q in
  let k := p / (p + r) in
  let xLat := xLat st + k * (measurementLat - xLat st) in
  let p := (1 - k) * p in
  (* Longitude filter *)
  let p := p + q in
  let k := p / (p + r) in
  let xLng := xLng st + k * (measurementLng - xLng st) in
  let p := (1 - k) * p in
  {| p := p; xLat := xLat; xLng := xLng;
     smoothed := smoothed st ++
       [{| latitude := toFixed xLat 7;
           longitude := toFixed xLng 7;
           createdAt := createdAt point |}] |}.

(** The variables before the loop, [first] being [points[0]]. *)
Definition start (first : point) : state :=
  {| p := 1.0;
     xLat := parseFloat (latitude first);
     xLng := parseFloat (longitude first);
     smoothed := [] |}.

End Kalman.

Definition applyKalmanFilter (points : list point) : list point :=
  match points with
  | [] => []
  | first :: _ => Kalman.smoothed (fold_left Kalman.step points (Kalman.start first))
  end.

(** ** [decodePolyline]  (App.jsx, lines 302-331) *)

(** The variables of one [do ... while (b >= 0x20)] loop. *)
Record scan := { index : nat; shift : Z; result : Z }.

(** One pass through the body of the [do ... while]; the boolean is the loop
    test [b >= 0x20].
<<
      b = encoded.charCodeAt(index++) - 63;
      result |= (b & 0x1f) << shift;
      shift += 5;
>> *)
Definition group_step (encoded : string) (st : scan) : scan * bool :=
  let b := minus_const (charCodeAt encoded (index st)) 63 in
  ({| index := S (index st);
      shift := shift st + 5;
      result := bit_or (result st) (shift_left (bit_and b 31) (shift st)) |},
   ge_const b 32).

(** The [do ... while] loop; [None] when the fuel runs out. *)
Fixpoint read_group (fuel : nat) (encoded : string) (st : scan) : option scan :=
  match fuel with
  | O => None
  | S fuel' =>
      let '(st', again) := group_step encoded st in
      if again then read_group fuel' encoded st' else Some st'
  end.

(** [(result & 1) ? ~(result >> 1) : (result >> 1)] *)
Definition zigzag (result : Z) : Z :=
  if Z.eqb (Z.land result 1) 0 then shift_right1 result
  else bit_not (shift_right1 result).

(** The outer [while (index < len)] loop, with the accumulated [lat], [lng]
    and [points]. *)
Fixpoint decode_loop (fuel : nat) (encoded : string) (from : nat)
    (lat lng : number) (points : list (number * number))
  : option (list (number * number)) :=
  match fuel with
  | O => None
  | S fuel' =>
      if (from <? String.length encoded)%nat then
        match read_group (S fuel') encoded {| index := from; shift := 0; result := 0 |} with
        | None => None
        | Some g1 =>
            let dlat := zigzag (result g1) in
            let lat := (lat + of_int32 dlat)%float in
            match read_group (S fuel') encoded {| index := index g1; shift := 0; result := 0 |} with
            | None => None
            | Some g2 =>
                let dlng := zigzag (result g2) in
                let lng := (lng + of_int32 dlng)%float in
                decode_loop fuel' encoded (index g2) lat lng
                  (points ++ [((lat / 1e5)%float, (lng / 1e5)%float)])
            end
        end
      else Some points
  end.

(** Fuel that is always enough (see [decode_loop_enough]). *)
Definition decode_fuel (encoded : string) : nat := S (String.length encoded).

Definition decodePolyline_run (encoded : string) : option (list (number * number)) :=
  decode_loop (decode_fuel encoded) encoded 0 0%float 0%float [].

(** [decodePolyline(encoded)]: the body has no [throw], and nothing it does to
    a string can fail, so the call completes normally with the list. *)
Definition decodePolyline (encoded : string) : completion (list (number * number)) :=
  Normal (default [] (decodePolyline_run encoded)).


(** ** The [MapTracker] component  (App.jsx, lines 138-331) *)

Module MapTracker.

(** The component state that the pipeline writes. *)
Record State := {
  points : list point;
  filteredPoints : list point;
  orsPoints : list point;
  mapboxPoints : list (number * number);
  totalDistance : number;
  center : number * number
}.

(** [useState] initial values. *)
Definition initial : State :=
  {| points := []; filteredPoints := []; orsPoints := []; mapboxPoints := [];
     totalDistance := 0%float; center := (13.0827, 80.2707)%float |}.

Definition setPoints (v : list point) (st : State) : State :=
  {| points := v; filteredPoints := filteredPoints st; orsPoints := orsPoints st;
     mapboxPoints := mapboxPoints st; totalDistance := totalDistance st;
     center := center st |}.
Definition setFilteredPoints (v : list point) (st : State) : State :=
  {| points := points st; filteredPoints := v; orsPoints := orsPoints st;
     mapboxPoints := mapboxPoints st; totalDistance := totalDistance st;
     center := center st |}.
Definition setOrsPoints (v : list point) (st : State) : State :=
  {| points := points st; filteredPoints := filteredPoints st; orsPoints := v;
     mapboxPoints := mapboxPoints st; totalDistance := totalDistance st;
     center := center st |}.
Definition setMapboxPoints (v : list (number * number)) (st : State) : State :=
  {| points := points st; filteredPoints := filteredPoints st; orsPoints := orsPoints st;
     mapboxPoints := v; totalDistance := totalDistance st; center := center st |}.
Definition setTotalDistance (v : number) (st : State) : State :=
  {| points := points st; filteredPoints := filteredPoints st; orsPoints := orsPoints st;
     mapboxPoints := mapboxPoints st; totalDistance := v; center := center st |}.
Definition setCenter (v : number * number) (st : State) : State :=
  {| points := points st; filteredPoints := filteredPoints st; orsPoints := orsPoints st;
     mapboxPoints := mapboxPoints st; totalDistance := totalDistance st; center := v |}.

(** One record of the trajectory source: [element?.location?.coordinates]
    when it is an array ([None] otherwise), [element.accuracy] when present,
    and the capture time stamp. The entries of the array are numbers, as the
    source sends them. An array with an entry that has no [toString] ([null])
    is not a value of this type: on such a record, once it has passed the
    tests, [coords[1].toString()] throws, outside any [try] of the pipeline,
    and the run is abandoned before it has written anything. *)
Record element := {
  coordinates : option (list number);
  accuracy : option number;
  location_captured_on_timestamp : value
}.

(** [data.routes[0]] of a directions response. *)
Record route := {
  distance : number;
  geometry : string
}.

(** The requests the pipeline sends. *)
Inductive request :=
| SnapRequest (locations : list (number * number))
| DirectionsRequest (segment : list point) (url : string).

(** The world outside: what each [await]ed call completes with. A [Throw]
    is a rejected [fetch] or a body that is not what the code reads.
    - [snap locations]: [data?.locations || []], each entry [null] or the
      matched [location] pair [longitude, latitude];
    - [directions n url]: the answer to the [n]-th directions request of a
      run, [None] when [data.routes && data.routes[0]] is falsy;
    - [Date_now n]: the clock at the [n]-th snapped point. *)
Record Services := {
  snap : list (number * number) -> completion (list (option (number * number)));
  directions : nat -> string -> completion (option route);
  Date_now : nat -> number
}.

Section Pipeline.
Context `{MathLib}.
Variable world : Services.

(** *** [fetchMapboxRoute]  (lines 264-299) *)

Definition directions_url (waypoints : string) : string :=
  "https://api.mapbox.com/directions/v5/mapbox/walking/" ++ waypoints ++
  "?access_token=pk.eyJ1IjoiZ2F2YXNrYXItZmllbGR5IiwiYSI6ImNtOG5oMWVlOTAwaXAya3F0aHkxcno1OGMifQ.u-ghg6kr-0rG0R7m90KCjg".

(** The [url] built for a segment: its way points are
    [segment.map(p => `${p.longitude},${p.latitude}`).join(';')]. *)
Definition segment_url (segment : list point) : string :=
  let waypoints :=
    join ";" (map (fun p => longitude p ++ "," ++ latitude p) segment) in
  directions_url waypoints.

(** [xs.slice(i, j)] for [i <= j]. *)
Definition slice {A : Type} (i j : nat) (xs : list A) : list A := take (j - i) (drop i xs).

(** The local variables of the chunk loop, and the requests sent so far. *)
Record chunk_state := {
  allPoints : list (number * number);
  totalDist : number;
  sent : list request
}.

(** The [for (let i = 0; i < pointsForRoute.length; i += 25)] loop from
    index [i] on. The outer [option] is [None] only when the fuel runs out;
    a [Throw] leaves the [try] block. *)
Fixpoint chunk_loop (fuel : nat) (pointsForRoute : list point) (i : nat)
    (st : chunk_state) : option (completion chunk_state * list request) :=
  match fuel with
  | O => None
  | S fuel' =>
      if (i <? length pointsForRoute)%nat then
        let segment := slice i (Nat.min (i + 25) (length pointsForRoute)) pointsForRoute in
        if (length segment <? 2)%nat then Some (Normal st, sent st)
        else
          let url := segment_url segment in
          let sent' := (sent st ++ [DirectionsRequest segment url])%list in
          match directions world (length (sent st)) url with
          | Throw e => Some (Throw e, sent')
          | Normal None =>
              chunk_loop fuel' pointsForRoute (i + 25)
                {| allPoints := allPoints st; totalDist := totalDist st; sent := sent' |}
          | Normal (Some r) =>
              let totalDist := (totalDist st + distance r)%float in
              match decodePolyline (geometry r) with
              | Throw e => Some (Throw e, sent')
              | Normal decoded =>
                  chunk_loop fuel' pointsForRoute (i + 25)
                    {| allPoints := (allPoints st ++ decoded)%list;
                       totalDist := totalDist; sent := sent' |}
              end
          end
      else Some (Normal st, sent st)
  end.

(** Fuel that is always enough (see [chunk_loop_serve]). *)
Definition chunk_fuel (pointsForRoute : list point) : nat := S (length pointsForRoute).

Definition run_chunks (pointsForRoute : list point) : completion chunk_state * list request :=
  default (Normal {| allPoints := []; totalDist := 0%float; sent := [] |}, [])
    (chunk_loop (chunk_fuel pointsForRoute) pointsForRoute 0
       {| allPoints := []; totalDist := 0%float; sent := [] |}).

(** The state after the call, and the requests it sent. The [catch] only
    logs. *)
Definition fetchMapboxRoute (st : State) (pointsForRoute : list point)
  : State * list request :=
  match run_chunks pointsForRoute with
  | (Normal c, reqs) =>
      (setTotalDistance (totalDist c) (setMapboxPoints (allPoints c) st), reqs)
  | (Throw _, reqs) => (st, reqs)
  end.

(** *** [fetchORSSnap]  (lines 226-262) *)

(** [locations.filter(loc => loc !== null).map(...)], the clock read once
    for each survivor. *)
Definition snapped_points (locations : list (option (number * number))) : list point :=
  imap (fun n loc =>
          {| latitude := Number_toString (snd loc);
             longitude := Number_toString (fst loc);
             createdAt := Num (Date_now world n) |})
       (omap id locations).

Definition fetchORSSnap (st : State) (pointsToSnap : list point) : State * list request :=
  let locations :=
    map (fun e => (parseFloat (longitude e), parseFloat (latitude e))) pointsToSnap in
  match snap world locations with
  | Throw _ => (st, [SnapRequest locations])
  | Normal found =>
      let snappedPoints := snapped_points found in
      let '(st', reqs) := fetchMapboxRoute (setOrsPoints snappedPoints st) snappedPoints in
      (st', SnapRequest locations :: reqs)
  end.

(** *** [processPoints]  (lines 170-224) *)

(** The test that lets an element through:
    [Array.isArray(coords) && coords.length === 2] and then
    [!element.accuracy || element.accuracy < 15]. *)
Definition passes (e : element) : bool :=
  match coordinates e with
  | Some coords =>
      (length coords =? 2)%nat &&
      match accuracy e with
      | None => true
      | Some a => falsy a || (a <? 15)%float
      end
  | None => false
  end.

(** The point pushed for an element that passes. *)
Definition extracted_point (e : element) : option point :=
  match coordinates e with
  | Some [lon; lat] =>
      Some {| latitude := Number_toString lat;
              longitude := Number_toString lon;
              createdAt := location_captured_on_timestamp e |}
  | _ => None
  end.

(** The [for (const element of rawData)] loop. *)
Definition extract_step (extractedPoints : list point) (e : element) : list point :=
  if passes e then extractedPoints ++ option_list (extracted_point e) else extractedPoints.

Definition extract (rawData : list element) : list point :=
  fold_left extract_step rawData [].

(** The [distance] loop over [processed]. *)
Definition path_distance (processed : list point) : number :=
  for_range 0 (length processed - 1)
    (fun i distance =>
       match at_index processed i, at_index processed (i + 1) with
       | Some a, Some b => (distance + distance_between a b)%float
       | _, _ => distance
       end)
    0%float.

(** [processPoints(body)]; [body] is [body?.data] when that is an array.
    The result is the state after the call, the requests sent, and what the
    call completes with (it returns no value). *)
Definition processPoints (st : State) (body : option (list element))
  : State * list request * completion value :=
  match body with
  | None => (st, [], Normal Undefined)
  | Some rawData =>
      let extractedPoints := extract rawData in
      let st := setPoints extractedPoints st in
      if (length extractedPoints <? 2)%nat then (st, [], Normal Undefined)
      else
        let processed := applyKalmanFilter extractedPoints in
        let processed := removeZigzags processed None in
        let processed := thinPoints processed (Some 40%float) in
        let st := setFilteredPoints processed st in
        let st := setTotalDistance (path_distance processed) st in
        let st :=
          match processed with
          | first :: _ => setCenter (parseFloat (latitude first), parseFloat (longitude first)) st
          | [] => st
          end in
        let '(st, reqs) := fetchORSSnap st extractedPoints in
        (st, reqs, Normal Undefined)
  end.

End Pipeline.
End MapTracker.

(** ** Notions the specification uses *)

(** A string whose last continuation sequence is cut short: its last
    character still has the continuation bit. *)
Definition truncated (encoded : string) : bool :=
  ge_const (minus_const (charCodeAt encoded (String.length encoded - 1)) 63) 32.

(** The Kalman recurrence of the specification, for one axis:
<<
    p = p + q;  k = p / (p + r);  x = x + k * (m - x);  p = (1 - k) * p
>> *)
Module Axis.
Local Open Scope float_scope.
Import Kalman.

(** One update of the pair (covariance, estimate) by the measurement [m]. *)
Definition update (p x m : number) : number * number :=
  let p := p + q in
  let k := p / (p + r) in
  let x := x + k * (m - x) in
  let p := (1 - k) * p in
  (p, x).

(** What one update does to the covariance; no measurement enters it. *)
Definition coast (p : number) : number :=
  let p := p + q in
  let k := p / (p + r) in
  (1 - k) * p.

(** A filter of its own on one stream: its covariance is updated once for
    each measurement. *)
Fixpoint own (p x : number) (ms : list number) : list number :=
  match ms with
  | [] => []
  | m :: ms' => let '(p', x') := update p x m in x' :: own p' x' ms'
  end.

(** The estimates of a stream filtered on its own, from covariance [1.0]
    and the first measurement. *)
Definition independent (ms : list number) : list number :=
  match ms with
  | [] => []
  | m0 :: _ => own 1.0 m0 ms
  end.

(** The latitude stream when the covariance is shared with the other axis:
    after each latitude update the covariance goes through one more update
    (the longitude one). *)
Fixpoint shared_first (p x : number) (ms : list number) : list number :=
  match ms with
  | [] => []
  | m :: ms' => let '(p', x') := update p x m in x' :: shared_first (coast p') x' ms'
  end.

(** The longitude stream under the shared covariance: the covariance has
    gone through the latitude update before each longitude update. *)
Fixpoint shared_second (p x : number) (ms : list number) : list number :=
  match ms with
  | [] => []
  | m :: ms' => let '(p', x') := update (coast p) x m in x' :: shared_second p' x' ms'
  end.

Definition latitude_stream (ms : list number) : list number :=
  match ms with
  | [] => []
  | m0 :: _ => shared_first 1.0 m0 ms
  end.

Definition longitude_stream (ms : list number) : list number :=
  match ms with
  | [] => []
  | m0 :: _ => shared_second 1.0 m0 ms
  end.

End Axis.

(** The measurements of each axis, as the filter reads them. *)
Definition latitudes (points : list point) : list number :=
  map (fun pt => parseFloat (latitude pt)) points.
Definition longitudes (points : list point) : list number :=
  map (fun pt => parseFloat (longitude pt)) points.

(** What the first estimate of an axis settles to after the first update:
    the first measurement itself, or [NaN] when that is not a finite number
    (then [m - x] is [NaN]). *)
Definition first_estimate (x : number) : number := if isFinite x then x else nan.

(** The routing stage, as the specification tells it: the snapped sequence
    cut into chunks, the chunks served in order. *)
Module Routing.
Section Chunks.
Variable world : MapTracker.Services.
Import MapTracker.
Local Open Scope list_scope.

(** The consecutive chunks of at most 25 points. *)
Fixpoint chunks_of (fuel : nat) (pts : list point) : list (list point) :=
  match fuel, pts with
  | S fuel', _ :: _ => take 25 pts :: chunks_of fuel' (drop 25 pts)
  | _, _ => []
  end.

Definition chunks (pts : list point) : list (list point) := chunks_of (length pts) pts.

(** The chunks in front of the first one of fewer than 2 points. *)
Fixpoint attempted (cs : list (list point)) : list (list point) :=
  match cs with
  | c :: cs' => if (length c <? 2)%nat then [] else c :: attempted cs'
  | [] => []
  end.

Definition request_of (c : list point) : request := DirectionsRequest c (segment_url c).

(** The chunk a directions request was sent for. *)
Definition segment_of (q : request) : list point :=
  match q with
  | DirectionsRequest segment _ => segment
  | SnapRequest _ => []
  end.

(** No request for the chunks [cs], sent as the requests [n], [n + 1], ...,
    fails. *)
Fixpoint quiet (n : nat) (cs : list (list point)) : bool :=
  match cs with
  | [] => true
  | c :: cs' =>
      match directions world n (segment_url c) with
      | Throw _ => false
      | Normal _ => quiet (S n) cs'
      end
  end.

(** The chunks requested until a request fails, that one included. *)
Fixpoint until_throw (n : nat) (cs : list (list point)) : list (list point) :=
  match cs with
  | [] => []
  | c :: cs' =>
      c :: match directions world n (segment_url c) with
           | Throw _ => []
           | Normal _ => until_throw (S n) cs'
           end
  end.

(** The routes the service reported for the chunks [cs]: the completed
    chunks. *)
Fixpoint answered (n : nat) (cs : list (list point)) : list route :=
  match cs with
  | [] => []
  | c :: cs' =>
      match directions world n (segment_url c) with
      | Normal (Some r) => r :: answered (S n) cs'
      | _ => answered (S n) cs'
      end
  end.

(** The points a route's geometry decodes to. *)
Definition route_points (r : route) : list (number * number) :=
  default [] (decodePolyline_run (geometry r)).

(** The running sum of the reported distances, from [start]. *)
Definition running_total (start : number) (rs : list route) : number :=
  fold_left (fun total r => (total + distance r)%float) rs start.

(** The chunk loop told over the list of chunks. *)
Fixpoint serve (cs : list (list point)) (st : chunk_state)
  : completion chunk_state * list request :=
  match cs with
  | [] => (Normal st, sent st)
  | c :: cs' =>
      let sent' := sent st ++ [request_of c] in
      match directions world (length (sent st)) (segment_url c) with
      | Throw e => (Throw e, sent')
      | Normal None =>
          serve cs' {| allPoints := allPoints st; totalDist := totalDist st; sent := sent' |}
      | Normal (Some r) =>
          serve cs' {| allPoints := allPoints st ++ route_points r;
                       totalDist := (totalDist st + distance r)%float;
                       sent := sent' |}
      end
  end.

End Chunks.
End Routing.

(** A fix of the data model, as the trajectory source delivers it: a pair of
    coordinates, and an accuracy that is a number when it is there (JSON has
    no [NaN]). *)
Definition is_fix (e : MapTracker.element) : bool :=
  match MapTracker.coordinates e with
  | Some [_; _] => true
  | _ => false
  end &&
  match MapTracker.accuracy e with
  | Some a => negb (is_nan a)
  | None => true
  end.

(** The accuracy gate of the specification: no accuracy, or one strictly
    below 15 meters. *)
Definition accuracy_ok (e : MapTracker.element) : bool :=
  match MapTracker.accuracy e with
  | Some a => (a <? 15)%float
  | None => true
  end.

(** A result with nothing in it: no refined, snapped or routed point. *)
Definition empty_result (st : MapTracker.State) : Prop :=
  MapTracker.filteredPoints st = [] /\
  MapTracker.orsPoints st = [] /\
  MapTracker.mapboxPoints st = [].

(** The pipeline up to the snap request. *)
Section Refinement.
Context `{MathLib}.
Import MapTracker.

(** The points the refinement stages leave of the extracted ones. *)
Definition refined (extractedPoints : list point) : list point :=
  thinPoints (removeZigzags (applyKalmanFilter extractedPoints) None) (Some 40%float).

(** The state when the snap request is sent. *)
Definition before_snap (st : State) (extractedPoints : list point) : State :=
  let processed := refined extractedPoints in
  let st := setTotalDistance (path_distance processed)
              (setFilteredPoints processed (setPoints extractedPoints st)) in
  match processed with
  | first :: _ => setCenter (parseFloat (latitude first), parseFloat (longitude first)) st
  | [] => st
  end.

(** The locations sent to the snap service. *)
Definition snap_locations (pointsToSnap : list point) : list (number * number) :=
  map (fun e => (parseFloat (longitude e), parseFloat (latitude e))) pointsToSnap.

End Refinement.

(** ** A world to run the pipeline in *)

Module Sample.
Local Open Scope float_scope.

(** An engine for [Math]. The language leaves the precision of these
    functions to the engine; this one sums their power series. *)
Fixpoint sin_series (n : nat) (k term sum x2 : number) : number :=
  match n with
  | O => sum
  | S n' =>
      let term' := - term * x2 / ((k + 1) * (k + 2)) in
      sin_series n' (k + 2) term' (sum + term') x2
  end.

Definition sin (x : number) : number :=
  let x := remainder x (2 * Math_PI) in
  let x := if Math_PI <? x then x - 2 * Math_PI
           else if x <? - Math_PI then x + 2 * Math_PI else x in
  sin_series 14 1 x x (x * x).

Definition cos (x : number) : number :=
  let x := remainder x (2 * Math_PI) in
  let x := if Math_PI <? x then x - 2 * Math_PI
           else if x <? - Math_PI then x + 2 * Math_PI else x in
  sin_series 14 0 1 1 (x * x).

Fixpoint atan_series (n : nat) (k power sum t2 : number) : number :=
  match n with
  | O => sum
  | S n' =>
      let power' := - power * t2 in
      atan_series n' (k + 2) power' (sum + power' / (k + 2)) t2
  end.

(** For [|t| <= 1], through [atan t = 2 atan (t / (1 + sqrt (1 + t^2)))]. *)
Definition atan_small (t : number) : number :=
  let half t := t / (1 + sqrt (1 + t * t)) in
  let t := half (half t) in
  4 * atan_series 20 1 t t (t * t).

Definition atan (t : number) : number :=
  if 1 <? abs t then
    (if 0 <? t then Math_PI / 2 - atan_small (1 / t)
     else - Math_PI / 2 - atan_small (1 / t))
  else atan_small t.

Definition atan2 (y x : number) : number :=
  if 0 <? x then atan (y / x)
  else if x <? 0 then (if y <? 0 then atan (y / x) - Math_PI else atan (y / x) + Math_PI)
  else if 0 <? y then Math_PI / 2
  else if y <? 0 then - Math_PI / 2
  else 0.

#[export] Instance engine : MathLib :=
  {| Math_sin := sin; Math_cos := cos; Math_sqrt := sqrt; Math_atan2 := atan2 |}.

(** The route every directions request is answered with, when answered. *)
Definition reference_route : MapTracker.route :=
  {| MapTracker.distance := 1200;
     MapTracker.geometry := "_p~iF~ps|U_ulLnnqC_mqNvxq`@" |}.

(** A world where every request is answered: each location is matched by
    itself, each chunk gets the reference route. *)
Definition world : MapTracker.Services :=
  {| MapTracker.snap := fun locations => Normal (map Some locations);
     MapTracker.directions := fun _ _ => Normal (Some reference_route);
     MapTracker.Date_now := fun _ => 1760572800000 |}.

(** The same world with the directions service down. *)
Definition world_without_directions : MapTracker.Services :=
  {| MapTracker.snap := fun locations => Normal (map Some locations);
     MapTracker.directions := fun _ _ => Throw (Error "TypeError");
     MapTracker.Date_now := fun _ => 1760572800000 |}.

(** A fix at the given place, with the given accuracy. *)
Definition fix_at (lat lon : number) (acc : option number) : MapTracker.element :=
  {| MapTracker.coordinates := Some [lon; lat];
     MapTracker.accuracy := acc;
     MapTracker.location_captured_on_timestamp := Str "2025-10-16T08:00:00Z" |}.

(** The three fixes of the specification's example. *)
Definition three_fixes : list MapTracker.element :=
  [fix_at 13.0827 80.2707 (Some 5);
   fix_at 13.0830 80.2710 (Some 20);
   fix_at 13.0835 80.2715 (Some 8)].

(** A point at the given place. *)
Definition place (lat lon : string) : point :=
  {| latitude := lat; longitude := lon; createdAt := Num 1760572800000 |}.

(** [n] snapped points in a row. *)
Definition row (n : nat) : list point :=
  map (fun i => {| latitude := "13." ++ digits (Z.of_nat (1000 + i));
                   longitude := "80.2707";
                   createdAt := Num 1760572800000 |})
      (seq 0 n).

End Sample.

(** ** [fetchMapData]  (App.jsx, lines 150-168) *)

Module Page.
Import MapTracker.

(** [response] of the trajectory request: [response.ok], and what
    [response.json()] completes with, read as [processPoints] reads it
    ([body?.data] when that is an array). *)
Record response := {
  ok : bool;
  json : completion (option (list element))
}.

(** The trajectory source: what [fetch(url)] completes with. *)
Definition Source := string -> completion response.

(** The component as [fetchMapData] sees it: the two inputs, the [loading]
    flag, the state the pipeline writes, and the [alert]s shown so far. *)
Record Page := {
  userId : string;
  date : string;
  loading : bool;
  tracker : State;
  alerts : list string
}.

(** [useState] initial values. *)
Definition first_page : Page :=
  {| userId := "a874e128-3a24-4ac5-a36a-ada3c1d603ee";
     date := "2025-10-16";
     loading := true;
     tracker := initial;
     alerts := [] |}.

Definition tracking_url (userId date : string) : string :=
  "https://api.getfieldy.com/route/map/debug/full-day-tracking/" ++ userId ++ "/" ++ date.

Definition alert_text : string := "Error loading map data. Check console for details.".

Section FetchMapData.
Context `{MathLib}.
Variable source : Source.
Variable world : Services.

(** The [try] block: the tracker state it leaves, the requests the pipeline
    sent, and how the block completes. *)
Definition try_block (pg : Page) : State * list request * completion value :=
  match source (tracking_url (userId pg) (date pg)) with
  | Throw e => (tracker pg, [], Throw e)
  | Normal response =>
      if negb (ok response) then (tracker pg, [], Throw (Error "Failed to fetch data"))
      else
        match json response with
        | Throw e => (tracker pg, [], Throw e)
        | Normal body => processPoints world (tracker pg) body
        end
  end.

(** [fetchMapData()]: the page after the call ([finally] has put [loading]
    back to false) and the requests the pipeline sent. *)
Definition fetchMapData (pg : Page) : Page * list request :=
  let '(st, reqs, done) := try_block pg in
  ({| userId := userId pg;
      date := date pg;
      loading := false;
      tracker := st;
      alerts := match done with
                | Normal _ => alerts pg
                | Throw _ => (alerts pg ++ [alert_text])%list
                end |},
   reqs).

End FetchMapData.

(** What the trajectory source delivers for the page: the body, when the
    request is answered with a good status and a readable body. *)
Definition delivered (source : Source) (pg : Page) : option (option (list element)) :=
  match source (tracking_url (userId pg) (date pg)) with
  | Normal response =>
      if ok response then
        match json response with
        | Normal body => Some body
        | Throw _ => None
        end
      else None
  | Throw _ => None
  end.

End Page.



(** A world where the snap service matches nothing. *)
Definition world_matching_nothing : MapTracker.Services :=
  {| MapTracker.snap := fun locations => Normal (map (fun _ => None) locations);
     MapTracker.directions := fun _ _ => Normal (Some Sample.reference_route);
     MapTracker.Date_now := fun _ => 1760572800000%float |}.

(** A trajectory source that answers with an error status. *)
Definition source_not_ok : Page.Source :=
  fun _ => Normal {| Page.ok := false; Page.json := Normal (Some Sample.three_fixes) |}.

(** Four points: north veering from west to east of north, then back. *)
Definition there_and_back : list point :=
  [Sample.place "13.000" "80.000"; Sample.place "13.010" "79.999";
   Sample.place "13.020" "80.000"; Sample.place "13.010" "80.000"].

(** * Properties *)

(** ** The polyline decoder *)

Section DecodeFacts.
Variable encoded : string.

Lemma get_past_end (s : string) (i : nat) :
  (String.length s <= i)%nat -> String.get i s = None.
Proof.
  revert i. induction s as [|c s IH]; intros i Hi; simpl in *.
  - reflexivity.
  - destruct i as [|i]; [lia|]. apply IH. lia.
Qed.

Lemma length_append (s1 s2 : string) :
  String.length (s1 ++ s2) = (String.length s1 + String.length s2)%nat.
Proof. induction s1 as [|c s1 IH]; simpl; [reflexivity | now rewrite IH]. Qed.

Lemma charCodeAt_past_end (i : nat) :
  (String.length encoded <= i)%nat -> charCodeAt encoded i = None.
Proof. intros Hi. unfold charCodeAt. now rewrite get_past_end. Qed.

Lemma group_step_index (st : scan) :
  index (fst (group_step encoded st)) = S (index st).
Proof. reflexivity. Qed.

Lemma group_step_past_end (st : scan) :
  (String.length encoded <= index st)%nat -> snd (group_step encoded st) = false.
Proof.
  intros Hi. unfold group_step. simpl.
  now rewrite charCodeAt_past_end.
Qed.

(** A group that goes on was read inside the string. *)
Lemma group_step_again (st : scan) :
  snd (group_step encoded st) = true -> (index st < String.length encoded)%nat.
Proof.
  intros Hs. destruct (Nat.lt_ge_cases (index st) (String.length encoded)) as [|Hge]; [assumption|].
  rewrite group_step_past_end in Hs by assumption. discriminate.
Qed.

(** With as much fuel as characters are left, and one more, the inner loop
    comes to its end, further on in the string. *)
Lemma read_group_enough (fuel : nat) (st : scan) :
  (String.length encoded - index st < fuel)%nat ->
  exists st', read_group fuel encoded st = Some st' /\ (index st < index st')%nat.
Proof.
  revert st. induction fuel as [|fuel IH]; intros st Hf; [lia|].
  cbn [read_group]. destruct (group_step encoded st) as [st1 again] eqn:E.
  assert (Hi : index st1 = S (index st)) by (now rewrite <- (group_step_index st), E).
  destruct again.
  - assert (Hlt : (index st < String.length encoded)%nat)
      by (apply group_step_again; now rewrite E).
    destruct (IH st1) as (st' & Hr & Hlt'); [lia|].
    exists st'. split; [assumption | lia].
  - exists st1. split; [reflexivity | lia].
Qed.

(** More fuel does not change what the loops return. *)
Lemma read_group_more (fuel extra : nat) (st st' : scan) :
  read_group fuel encoded st = Some st' ->
  read_group (fuel + extra) encoded st = Some st'.
Proof.
  revert st. induction fuel as [|fuel IH]; intros st Hr; [discriminate|].
  change (S fuel + extra)%nat with (S (fuel + extra)).
  cbn [read_group] in *.
  destruct (group_step encoded st) as [st1 [|]]; [now apply IH | assumption].
Qed.

Lemma decode_loop_enough (fuel from : nat) (lat lng : number)
    (points : list (number * number)) :
  (String.length encoded - from < fuel)%nat ->
  exists decoded, decode_loop fuel encoded from lat lng points = Some decoded.
Proof.
  revert from lat lng points.
  induction fuel as [|fuel IH]; intros from lat lng points Hf; [lia|].
  cbn [decode_loop].
  destruct (from <? String.length encoded)%nat eqn:Hlt; [|now eexists].
  destruct (read_group_enough (S fuel) {| index := from; shift := 0; result := 0 |})
    as (g1 & -> & H1); [simpl; lia|].
  destruct (read_group_enough (S fuel) {| index := index g1; shift := 0; result := 0 |})
    as (g2 & -> & H2); [simpl in *; lia|].
  apply IH. simpl in H1, H2. apply Nat.ltb_lt in Hlt. lia.
Qed.

Lemma decode_loop_more (fuel extra from : nat) (lat lng : number)
    (points decoded : list (number * number)) :
  decode_loop fuel encoded from lat lng points = Some decoded ->
  decode_loop (fuel + extra) encoded from lat lng points = Some decoded.
Proof.
  revert from lat lng points.
  induction fuel as [|fuel IH]; intros from lat lng points Hd; [discriminate|].
  change (S fuel + extra)%nat with (S (fuel + extra)).
  cbn [decode_loop] in *.
  destruct (from <? String.length encoded)%nat; [|assumption].
  destruct (read_group (S fuel) encoded _) as [g1|] eqn:E1; [|discriminate].
  apply (read_group_more _ extra) in E1.
  change (S fuel + extra)%nat with (S (fuel + extra)) in E1. rewrite E1.
  destruct (read_group (S fuel) encoded _) as [g2|] eqn:E2; [|discriminate].
  apply (read_group_more _ extra) in E2.
  change (S fuel + extra)%nat with (S (fuel + extra)) in E2. rewrite E2.
  now apply IH.
Qed.

(** The decoder always returns: with [decode_fuel] or any more. *)
Lemma decode_fuel_enough :
  exists points : list (number * number),
    decodePolyline encoded = Normal points /\
    forall extra : nat,
      decode_loop (decode_fuel encoded + extra) encoded 0 0%float 0%float []
      = Some points.
Proof.
  destruct (decode_loop_enough (decode_fuel encoded) 0 0%float 0%float [])
    as (points & Hd); [unfold decode_fuel; lia|].
  exists points. split.
  - unfold decodePolyline, decodePolyline_run. now rewrite Hd.
  - intros extra. now apply decode_loop_more.
Qed.

End DecodeFacts.

(** C9: the decoder (5-bit groups, continuation bit 0x20, zig-zag sign
    decoding, separately accumulated latitude and longitude, scale 1e5)
    returns the reference coordinates on the reference string. *)
Theorem decodePolyline_reference :
  decodePolyline "_p~iF~ps|U_ulLnnqC_mqNvxq`@"
  = Normal [(38.5, -120.2); (40.7, -120.95); (43.252, -126.453)]%float.
Proof. vm_compute. reflexivity. Qed.

(** C10: [decodePolyline] terminates on every string, malformed or not. The
    scan index goes up by one in each pass of an inner loop, a read past the
    end of the string is never a continuation, and so the decoder, given the
    fuel [decode_fuel] or any more, returns a list; the call completes
    normally with that list. *)
Theorem decodePolyline_terminates (encoded : string) :
  exists points : list (number * number),
    decodePolyline encoded = Normal points /\
    (forall extra : nat,
        decode_loop (decode_fuel encoded + extra) encoded 0 0%float 0%float []
        = Some points) /\
    (forall st : scan, index (fst (group_step encoded st)) = S (index st)) /\
    (forall (extra : nat) (sh res : Z),
        snd (group_step encoded
               {| index := String.length encoded + extra; shift := sh; result := res |})
        = false).
Proof.
  destruct (decode_fuel_enough encoded) as (points & Hd & Hfuel).
  exists points. split; [|split; [|split]].
  - exact Hd.
  - exact Hfuel.
  - intros st. apply group_step_index.
  - intros extra sh res. apply group_step_past_end. simpl. lia.
Qed.

(** *** Strings cut short *)

Section TruncatedFacts.
Variable encoded : string.

Lemma charCodeAt_closed (i : nat) :
  charCodeAt (encoded ++ "?") i
  = if (i <? String.length encoded)%nat then charCodeAt encoded i
    else if (i =? String.length encoded)%nat then Some 63 else None.
Proof.
  unfold charCodeAt.
  destruct (i <? String.length encoded)%nat eqn:Hlt.
  - apply Nat.ltb_lt in Hlt.
    now rewrite <- (append_correct1 encoded "?" i Hlt).
  - apply Nat.ltb_ge in Hlt.
    destruct (i =? String.length encoded)%nat eqn:Heq.
    + apply Nat.eqb_eq in Heq. subst i.
      pose proof (append_correct2 encoded "?" 0) as Hc.
      simpl in Hc. now rewrite <- Hc.
    + apply Nat.eqb_neq in Heq.
      rewrite get_past_end; [reflexivity|].
      rewrite length_append. simpl. lia.
Qed.

(** One more character [?] (a zero group that ends a sequence) changes no
    pass of the inner loop: past the end the code reads the same zero. *)
Lemma group_step_closed (st : scan) :
  group_step (encoded ++ "?") st = group_step encoded st.
Proof.
  unfold group_step. rewrite charCodeAt_closed.
  destruct (index st <? String.length encoded)%nat eqn:Hlt; [reflexivity|].
  apply Nat.ltb_ge in Hlt. rewrite (charCodeAt_past_end encoded _ Hlt).
  destruct (index st =? String.length encoded)%nat; reflexivity.
Qed.

Lemma read_group_closed (fuel : nat) (st : scan) :
  read_group fuel (encoded ++ "?") st = read_group fuel encoded st.
Proof.
  revert st. induction fuel as [|fuel IH]; intros st; [reflexivity|].
  cbn [read_group]. rewrite group_step_closed.
  destruct (group_step encoded st) as [st1 [|]]; [apply IH | reflexivity].
Qed.

Hypothesis cut : truncated encoded = true.

Lemma truncated_nonempty : (0 < String.length encoded)%nat.
Proof.
  destruct encoded; [discriminate cut | simpl; lia].
Qed.

(** No group of a string cut short ends exactly at the end of the string. *)
Lemma read_group_not_at_end (fuel : nat) (st st' : scan) :
  read_group fuel encoded st = Some st' -> index st' <> String.length encoded.
Proof.
  revert st. induction fuel as [|fuel IH]; intros st Hr; [discriminate|].
  cbn [read_group] in Hr.
  destruct (group_step encoded st) as [st1 again] eqn:E.
  destruct again; [now apply (IH st1)|].
  injection Hr as <-.
  pose proof (group_step_index encoded st) as Hi. rewrite E in Hi. simpl in Hi.
  intros Hend.
  assert (Hs : snd (group_step encoded st) = true).
  { unfold group_step. simpl.
    replace (index st) with (String.length encoded - 1)%nat by lia. exact cut. }
  rewrite E in Hs. discriminate.
Qed.

Lemma decode_loop_closed (fuel from : nat) (lat lng : number)
    (points : list (number * number)) :
  from <> String.length encoded ->
  decode_loop fuel (encoded ++ "?") from lat lng points
  = decode_loop fuel encoded from lat lng points.
Proof.
  revert from lat lng points.
  induction fuel as [|fuel IH]; intros from lat lng points Hfrom; [reflexivity|].
  cbn [decode_loop]. rewrite !read_group_closed.
  replace (from <? String.length (encoded ++ "?"))%nat
    with (from <? String.length encoded)%nat.
  2:{ rewrite length_append. simpl.
      destruct (Nat.ltb_spec from (String.length encoded));
      destruct (Nat.ltb_spec from (String.length encoded + 1)); lia || reflexivity. }
  destruct (from <? String.length encoded)%nat; [|reflexivity].
  destruct (read_group (S fuel) encoded _) as [g1|]; [|reflexivity].
  rewrite read_group_closed.
  destruct (read_group (S fuel) encoded _) as [g2|] eqn:E2; [|reflexivity].
  apply IH. now apply read_group_not_at_end in E2.
Qed.

End TruncatedFacts.

(** The decoder only ever adds points. *)
Lemma decode_loop_grows (encoded : string) (fuel from : nat) (lat lng : number)
    (points decoded : list (number * number)) :
  decode_loop fuel encoded from lat lng points = Some decoded ->
  (length points <= length decoded)%nat.
Proof.
  revert from lat lng points.
  induction fuel as [|fuel IH]; intros from lat lng points Hd; [discriminate|].
  cbn [decode_loop] in Hd.
  destruct (from <? String.length encoded)%nat.
  - destruct (read_group (S fuel) encoded _) as [g1|]; [|discriminate].
    destruct (read_group (S fuel) encoded _) as [g2|]; [|discriminate].
    apply IH in Hd. rewrite length_app in Hd. simpl in Hd. lia.
  - injection Hd as <-. lia.
Qed.

Lemma decode_nonempty (encoded : string) (decoded : list (number * number)) :
  (0 < String.length encoded)%nat ->
  decodePolyline encoded = Normal decoded -> decoded <> [].
Proof.
  intros Hlen Hd. unfold decodePolyline, decodePolyline_run, decode_fuel in Hd.
  destruct (decode_loop_enough encoded (S (String.length encoded)) 0 0%float 0%float [])
    as (r & Hr); [lia|].
  rewrite Hr in Hd. simpl in Hd. injection Hd as ->.
  cbn [decode_loop] in Hr.
  apply Nat.ltb_lt in Hlen. rewrite Hlen in Hr.
  destruct (read_group _ encoded _) as [g1|]; [|discriminate].
  destruct (read_group _ encoded _) as [g2|]; [|discriminate].
  apply decode_loop_grows in Hr. rewrite length_app in Hr. simpl in Hr.
  intros ->. simpl in Hr. lia.
Qed.

(** C3, as the code has it: on a string whose last continuation sequence is
    cut short, [decodePolyline] neither loops nor raises. It reads the missing
    characters as a zero group that ends the sequence, so it completes
    normally with what the same string closed by one [?] decodes to: a list
    that is not empty, its last point built from the cut sequence. *)
Theorem decodePolyline_truncated (encoded : string) :
  truncated encoded = true ->
  exists decoded : list (number * number),
    decodePolyline encoded = Normal decoded /\
    decoded <> [] /\
    decodePolyline (encoded ++ "?") = Normal decoded.
Proof.
  intros cut.
  destruct (decode_fuel_enough encoded) as (decoded & Hd & Hfuel).
  exists decoded. split; [assumption|]. split.
  - apply (decode_nonempty encoded); [now apply truncated_nonempty | assumption].
  - unfold decodePolyline, decodePolyline_run, decode_fuel.
    rewrite length_append. simpl String.length.
    rewrite decode_loop_closed.
    + replace (S (String.length encoded + 1)) with (decode_fuel encoded + 1)%nat
        by (unfold decode_fuel; lia).
      now rewrite Hfuel.
    + assumption.
    + pose proof (truncated_nonempty encoded cut). lia.
Qed.

(** The string [_p~iF~ps|U_ul] is the reference string cut inside its third
    number. *)
Lemma decodePolyline_truncated_witness :
  truncated "_p~iF~ps|U_ul" = true /\
  exists decoded : list (number * number),
    decodePolyline "_p~iF~ps|U_ul" = Normal decoded /\
    decoded <> [] /\
    decodePolyline ("_p~iF~ps|U_ul" ++ "?") = Normal decoded.
Proof.
  split; [reflexivity|].
  apply (decodePolyline_truncated "_p~iF~ps|U_ul"). reflexivity.
Defined.

(** C3, as the specification words it, fails: on the cut string the decoder
    returns two points, the second one made from the cut number, and raises
    nothing. *)
Lemma decodePolyline_truncated_returns :
  truncated "_p~iF~ps|U_ul" = true /\
  decodePolyline "_p~iF~ps|U_ul"
  = Normal [(38.5, -120.2); (38.57008, -120.2)]%float /\
  decodePolyline "_p~iF~ps|U_ul" <> Throw (Error "DecodeError").
Proof.
  split; [reflexivity|]. split; [vm_compute; reflexivity|].
  vm_compute. discriminate.
Qed.

(** ** The Kalman smoother *)

Section KalmanFacts.
Local Open Scope float_scope.

Lemma step_smoothed (st : Kalman.state) (pt : point) :
  exists out, Kalman.smoothed (Kalman.step st pt) = (Kalman.smoothed st ++ [out])%list
              /\ createdAt out = createdAt pt.
Proof. eexists. split; reflexivity. Qed.

(** The loop only appends to [smoothed]. *)
Lemma fold_step_smoothed (points : list point) (st : Kalman.state) :
  exists outs,
    Kalman.smoothed (fold_left Kalman.step points st) = (Kalman.smoothed st ++ outs)%list
    /\ map createdAt outs = map createdAt points.
Proof.
  revert st. induction points as [|pt points IH]; intros st; simpl.
  - exists []. split; [now rewrite app_nil_r | reflexivity].
  - destruct (IH (Kalman.step st pt)) as (outs & -> & Hc).
    destruct (step_smoothed st pt) as (out & -> & Ho).
    exists (out :: outs). split.
    + now rewrite <- app_assoc.
    + simpl. now rewrite Ho, Hc.
Qed.

Lemma fold_step_latitude (points : list point) (st : Kalman.state) :
  map latitude (Kalman.smoothed (fold_left Kalman.step points st))
  = (map latitude (Kalman.smoothed st) ++
     map (fun x => toFixed x 7)
       (Axis.shared_first (Kalman.p st) (Kalman.xLat st) (latitudes points)))%list.
Proof.
  revert st. induction points as [|pt points IH]; intros st; simpl.
  - now rewrite app_nil_r.
  - rewrite IH. cbn [Kalman.step Kalman.smoothed Kalman.p Kalman.xLat].
    rewrite map_app, <- app_assoc. reflexivity.
Qed.

Lemma fold_step_longitude (points : list point) (st : Kalman.state) :
  map longitude (Kalman.smoothed (fold_left Kalman.step points st))
  = (map longitude (Kalman.smoothed st) ++
     map (fun x => toFixed x 7)
       (Axis.shared_second (Kalman.p st) (Kalman.xLng st) (longitudes points)))%list.
Proof.
  revert st. induction points as [|pt points IH]; intros st; simpl.
  - now rewrite app_nil_r.
  - rewrite IH. cbn [Kalman.step Kalman.smoothed Kalman.p Kalman.xLng].
    rewrite map_app, <- app_assoc. reflexivity.
Qed.

(** The one covariance goes through two updates for each point. *)
Lemma fold_step_covariance (points : list point) (st : Kalman.state) :
  Kalman.p (fold_left Kalman.step points st)
  = Nat.iter (2 * length points) Axis.coast (Kalman.p st).
Proof.
  revert st. induction points as [|pt points IH]; intros st; [reflexivity|].
  cbn [fold_left length]. rewrite IH.
  replace (2 * S (length points))%nat with (S (S (2 * length points))) by lia.
  now rewrite !Nat.iter_succ_r.
Qed.

End KalmanFacts.

(** C1, as the code has it: the smoother runs the recurrence
    [p = p + q; k = p / (p + r); x = x + k * (m - x); p = (1 - k) * p], with
    [q = 0.00001] and [r = 0.0001], on the latitude and then on the longitude
    of each point, on ONE covariance [p] that starts at [1.0] and that both
    axes update, so twice for each point. No measurement enters the
    covariance, so the latitude outputs are a function of the latitude
    measurements alone, and the longitude outputs of the longitude
    measurements alone. *)
Theorem applyKalmanFilter_axes (points : list point) :
  Kalman.q = 0.00001%float /\ Kalman.r = 0.0001%float /\
  (forall first : point,
      Kalman.p (fold_left Kalman.step points (Kalman.start first))
      = Nat.iter (2 * length points) Axis.coast 1.0%float) /\
  map latitude (applyKalmanFilter points)
  = map (fun x => toFixed x 7) (Axis.latitude_stream (latitudes points)) /\
  map longitude (applyKalmanFilter points)
  = map (fun x => toFixed x 7) (Axis.longitude_stream (longitudes points)).
Proof.
  split; [reflexivity|]. split; [reflexivity|].
  split; [intros first; apply fold_step_covariance|].
  destruct points as [|first rest]; [split; reflexivity|].
  unfold applyKalmanFilter. split.
  - now rewrite fold_step_latitude.
  - now rewrite fold_step_longitude.
Qed.

(** *** The first update *)

Section FirstUpdate.
Local Open Scope float_scope.

Lemma Prim2SF_zero : Prim2SF 0 = S754_zero false.
Proof. reflexivity. Qed.

Lemma sub_diag_finite (x : number) : isFinite x = true -> x - x = 0.
Proof.
  unfold isFinite. intros Hx. apply Prim2SF_inj.
  rewrite sub_spec, Prim2SF_zero.
  destruct (Prim2SF x) as [s|s| |s m e]; try discriminate.
  - destruct s; reflexivity.
  - unfold SF64sub, SFsub. rewrite Z.sub_diag. reflexivity.
Qed.

Lemma sub_diag_not_finite (x : number) : isFinite x = false -> x - x = nan.
Proof.
  unfold isFinite. intros Hx. apply Prim2SF_inj.
  rewrite sub_spec.
  destruct (Prim2SF x) as [s|s| |s m e]; try discriminate.
  - destruct s; reflexivity.
  - reflexivity.
Qed.

Lemma mul_nan (k : number) : k * nan = nan.
Proof.
  apply Prim2SF_inj. rewrite mul_spec.
  change (Prim2SF nan) with S754_nan.
  destruct (Prim2SF k) as [s|s| |s m e]; reflexivity.
Qed.

Lemma add_nan (x : number) : x + nan = nan.
Proof.
  apply Prim2SF_inj. rewrite add_spec.
  change (Prim2SF nan) with S754_nan.
  destruct (Prim2SF x) as [s|s| |s m e]; reflexivity.
Qed.

(** Adding [+0] to a finite number gives the number back, but for [-0]. *)
Lemma add_zero_finite (x : number) :
  isFinite x = true -> x + 0 = x \/ (x = neg_zero /\ x + 0 = 0).
Proof.
  unfold isFinite. intros Hx.
  destruct (Prim2SF x) as [s|s| |s m e] eqn:E; try discriminate.
  - destruct s.
    + right. split.
      * apply Prim2SF_inj. now rewrite E.
      * apply Prim2SF_inj. now rewrite add_spec, E.
    + left. apply Prim2SF_inj. now rewrite add_spec, E.
  - left. apply Prim2SF_inj. now rewrite add_spec, E.
Qed.

Lemma toFixed_add_zero (x : number) (f : nat) :
  isFinite x = true -> toFixed (x + 0) f = toFixed x f.
Proof.
  intros Hx. destruct (add_zero_finite x Hx) as [-> | [-> ->]]; reflexivity.
Qed.

(** The first update of an axis: the measurement is the estimate. *)
Lemma toFixed_first_update (k x : number) (f : nat) :
  k * 0 = 0 ->
  toFixed (x + k * (x - x)) f = toFixed (first_estimate x) f.
Proof.
  intros Hk. unfold first_estimate.
  destruct (isFinite x) eqn:Hx.
  - rewrite (sub_diag_finite x Hx), Hk. now apply toFixed_add_zero.
  - now rewrite (sub_diag_not_finite x Hx), mul_nan, add_nan.
Qed.

End FirstUpdate.

(** C4, as the code has it: the output has the length of the input, each
    output point keeps the time stamp of its input point, and the first output
    point carries the first input's coordinates as [toFixed(7)] writes them
    (rounded to 7 decimals; [NaN] for a coordinate that is not a finite
    number), the initial estimate being the first point's coordinates. *)
Theorem applyKalmanFilter_shape (first : point) (rest : list point) :
  length (applyKalmanFilter (first :: rest)) = length (first :: rest) /\
  map createdAt (applyKalmanFilter (first :: rest)) = map createdAt (first :: rest) /\
  head (applyKalmanFilter (first :: rest))
  = Some {| latitude := toFixed (first_estimate (parseFloat (latitude first))) 7;
            longitude := toFixed (first_estimate (parseFloat (longitude first))) 7;
            createdAt := createdAt first |}.
Proof.
  assert (Hts : map createdAt (applyKalmanFilter (first :: rest))
                = map createdAt (first :: rest)).
  { unfold applyKalmanFilter.
    destruct (fold_step_smoothed (first :: rest) (Kalman.start first))
      as (outs & -> & Hc).
    exact Hc. }
  split; [|split; [exact Hts|]].
  - rewrite <- (length_map createdAt), Hts. now rewrite length_map.
  - unfold applyKalmanFilter. cbn [fold_left].
    match goal with
    | |- head (Kalman.smoothed (fold_left _ _ ?st)) = _ =>
        destruct (fold_step_smoothed rest st) as (outs & -> & _)
    end.
    cbn [Kalman.start Kalman.step Kalman.smoothed Kalman.p Kalman.xLat Kalman.xLng app head].
    f_equal. f_equal; apply toFixed_first_update; reflexivity.
Qed.

(** C4, as the specification words it, fails: the first output point is not
    the first input point, its coordinates are rewritten with 7 decimals. *)
Lemma applyKalmanFilter_first_differs :
  applyKalmanFilter
    [{| latitude := "13.08271234"; longitude := "80.27074321"; createdAt := Num 1%float |}]
  = [{| latitude := "13.0827123"; longitude := "80.2707432"; createdAt := Num 1%float |}] /\
  head (applyKalmanFilter
    [{| latitude := "13.08271234"; longitude := "80.27074321"; createdAt := Num 1%float |}])
  <> head
    [{| latitude := "13.08271234"; longitude := "80.27074321"; createdAt := Num 1%float |}].
Proof.
  split; [vm_compute; reflexivity|].
  vm_compute. intros Heq. discriminate Heq.
Qed.

(** C1, as the specification words it, fails: with a covariance of its own
    for each axis the second latitude would be 13.0828571 (gain 0.5238), the
    code gives 13.0828152 (gain 0.3842, the covariance having gone through
    the longitude update of the first point). *)
Lemma applyKalmanFilter_not_independent :
  let points :=
    [{| latitude := "13.0827"; longitude := "80.2707"; createdAt := Num 1%float |};
     {| latitude := "13.083"; longitude := "80.271"; createdAt := Num 2%float |}] in
  map latitude (applyKalmanFilter points) = ["13.0827000"; "13.0828152"] /\
  map (fun x => toFixed x 7) (Axis.independent (latitudes points))
  = ["13.0827000"; "13.0828571"] /\
  map latitude (applyKalmanFilter points)
  <> map (fun x => toFixed x 7) (Axis.independent (latitudes points)).
Proof.
  split; [vm_compute; reflexivity|]. split; [vm_compute; reflexivity|].
  vm_compute. intros Heq. discriminate Heq.
Qed.

(** ** Zigzag removal *)

Section ZigzagFacts.
Context `{MathLib}.

(** The test of the specification is the one the loop body makes. *)
Lemma gentle_turn_body (points : list point) (threshold : number) (i : nat) :
  gentle_turn points threshold i
  = match at_index points (i - 1), at_index points i, at_index points (i + 1) with
    | Some prev, Some curr, Some next => (bearing_change prev curr next <? threshold)%float
    | _, _, _ => false
    end.
Proof.
  unfold gentle_turn, turn_at.
  destruct (at_index points (i - 1)); [|reflexivity].
  destruct (at_index points i); [|reflexivity].
  destruct (at_index points (i + 1)); reflexivity.
Qed.

Lemma zigzag_fold (points : list point) (threshold : number)
    (indices : list nat) (result : list point) :
  fold_left (fun s i => zigzag_body points threshold i s) indices result
  = (result ++ omap (at_index points)
                 (List.filter (gentle_turn points threshold) indices))%list.
Proof.
  revert result. induction indices as [|i indices IH]; intros result; simpl.
  - now rewrite app_nil_r.
  - rewrite IH, gentle_turn_body. unfold zigzag_body.
    destruct (at_index points (i - 1)) as [prev|] eqn:E1; [|reflexivity].
    destruct (at_index points i) as [curr|] eqn:E2; [|reflexivity].
    destruct (at_index points (i + 1)) as [next|] eqn:E3; [|reflexivity].
    destruct (bearing_change prev curr next <? threshold)%float eqn:Hd; [|reflexivity].
    simpl. rewrite E2. simpl. now rewrite <- app_assoc.
Qed.

(** Every interior index has its two neighbours. *)
Lemma interior_neighbours (points : list point) (i : nat) :
  (1 <= i <= length points - 2)%nat ->
  exists prev curr next,
    points !! (i - 1)%nat = Some prev /\ points !! i = Some curr /\
    points !! (i + 1)%nat = Some next.
Proof.
  intros Hi.
  destruct (lookup_lt_is_Some_2 points (i - 1)%nat) as [prev Hp]; [lia|].
  destruct (lookup_lt_is_Some_2 points i) as [curr Hc]; [lia|].
  destruct (lookup_lt_is_Some_2 points (i + 1)%nat) as [next Hn]; [lia|].
  now exists prev, curr, next.
Qed.

Lemma last_cons_default {A : Type} (xs : list A) (x d : A) :
  List.last (x :: xs) d = List.last xs x.
Proof.
  revert x d. induction xs as [|y ys IH]; intros x d; [reflexivity|].
  change (List.last (x :: y :: ys) d) with (List.last (y :: ys) d).
  now rewrite !IH.
Qed.

Lemma lookup_final {A : Type} (xs : list A) (d : A) :
  (d :: xs) !! length xs = Some (List.last xs d).
Proof.
  revert d. induction xs as [|x xs IH]; intros d; [reflexivity|].
  change ((x :: xs) !! length xs = Some (List.last (x :: xs) d)).
  now rewrite IH, last_cons_default.
Qed.

End ZigzagFacts.

(** C7: on at least three points [removeZigzags] returns the first point,
    then exactly the interior points (indices 1 to n-2) whose shortest angular
    difference between bearing(prev, curr) and bearing(curr, next), that is
    [diff = |bearing2 - bearing1|] replaced by [360 - diff] when [diff > 180],
    is strictly below the threshold (60 when none is given), then the last
    point. Every interior index has its two neighbours, so the test is the
    one written out below at each of them, and the first and the last point
    are kept whatever the threshold. Fewer than three points come back
    unchanged. *)
Theorem removeZigzags_spec `{MathLib} (a b c : point) (rest : list point)
    (threshold : option number) :
  let points := a :: b :: c :: rest in
  let limit := default 60%float threshold in
  removeZigzags points threshold
  = (a :: omap (at_index points)
           (List.filter (gentle_turn points limit) (seq 1 (length points - 2)))
       ++ [List.last rest c])%list /\
  (forall i : nat, (1 <= i <= length points - 2)%nat ->
   exists prev curr next : point,
     points !! (i - 1)%nat = Some prev /\
     points !! i = Some curr /\
     points !! (i + 1)%nat = Some next /\
     gentle_turn points limit i
     = (let bearing1 :=
          calculateBearing (parseFloat (latitude prev)) (parseFloat (longitude prev))
                           (parseFloat (latitude curr)) (parseFloat (longitude curr)) in
        let bearing2 :=
          calculateBearing (parseFloat (latitude curr)) (parseFloat (longitude curr))
                           (parseFloat (latitude next)) (parseFloat (longitude next)) in
        let diff := abs (bearing2 - bearing1) in
        (if 180 <? diff then 360 - diff else diff) <? limit)%float) /\
  removeZigzags [] threshold = [] /\
  removeZigzags [a] threshold = [a] /\
  removeZigzags [a; b] threshold = [a; b].
Proof.
  intros points limit. split; [|split; [|repeat split]].
  - unfold removeZigzags, for_range. fold limit.
    change (length points <? 3)%nat with false. cbv iota.
    rewrite zigzag_fold.
    replace (length points - 1 - 1)%nat with (length points - 2)%nat by lia.
    change (at_index points 0) with (Some a).
    replace (at_index points (length points - 1)) with (Some (List.last rest c)).
    + reflexivity.
    + unfold points, at_index. simpl length.
      replace (S (S (S (length rest))) - 1)%nat with (S (S (length rest))) by lia.
      change ((a :: b :: c :: rest) !! S (S (length rest))) with ((c :: rest) !! length rest).
      now rewrite lookup_final.
  - intros i Hi.
    destruct (interior_neighbours points i Hi) as (prev & curr & next & Hp & Hc & Hn).
    exists prev, curr, next. split; [exact Hp|]. split; [exact Hc|]. split; [exact Hn|].
    unfold gentle_turn, turn_at, at_index. now rewrite Hp, Hc, Hn.
Qed.

Section SampleTurns.
Local Existing Instance Sample.engine.

(** A walk north that veers from a little west to a little east of north
    at its second point (bearings of about 354 and 6 degrees: a turn of
    about 11 degrees, found as [360 - diff]) and reverses at its third
    point (a turn of about 174 degrees): the second point is kept, the third
    is dropped. *)
Lemma removeZigzags_spec_witness :
  removeZigzags there_and_back None
  = [Sample.place "13.000" "80.000"; Sample.place "13.010" "79.999";
     Sample.place "13.010" "80.000"] /\
  gentle_turn there_and_back 60%float 1 = true /\
  gentle_turn there_and_back 60%float 2 = false /\
  (180 <? abs (bearing_between (Sample.place "13.010" "79.999")
                               (Sample.place "13.020" "80.000")
               - bearing_between (Sample.place "13.000" "80.000")
                                 (Sample.place "13.010" "79.999")))%float = true.
Proof.
  pose proof (@removeZigzags_spec Sample.engine
                (Sample.place "13.000" "80.000") (Sample.place "13.010" "79.999")
                (Sample.place "13.020" "80.000") [Sample.place "13.010" "80.000"] None)
    as (Hout & _).
  cbv zeta in Hout.
  split; [unfold there_and_back; rewrite Hout; vm_compute; reflexivity|].
  split; [vm_compute; reflexivity|].
  split; vm_compute; reflexivity.
Defined.

End SampleTurns.

(** ** Thinning *)

Section Comparisons.



End Comparisons.

Section ThinFacts.
Context `{MathLib}.
Variable minDistance : number.
Local Open Scope list_scope.

(** The loop over the indices of [pre ++ rest] that are in [rest], started
    with a result that ends in [kept], is the greedy pass over [rest]. *)
Lemma thin_fold (rest pre acc : list point) (kept : point) :
  fold_left (fun s i => thin_body (pre ++ rest) minDistance i s)
    (seq (length pre) (length rest)) (acc ++ [kept])
  = (acc ++ kept :: thin_from minDistance kept rest)%list.
Proof.
  revert pre acc kept.
  induction rest as [|current rest IH]; intros pre acc kept; [reflexivity|].
  cbn [length seq fold_left thin_from].
  assert (Hbody : thin_body (pre ++ current :: rest) minDistance (length pre) (acc ++ [kept])
                  = if (minDistance <=? distance_between kept current)%float
                    then ((acc ++ [kept]) ++ [current])%list else (acc ++ [kept])%list).
  { unfold thin_body, at_index.
    rewrite length_app. simpl length.
    replace (length acc + 1 - 1)%nat with (length acc) by lia.
    rewrite (list_lookup_middle acc [] kept (length acc) eq_refl).
    rewrite (list_lookup_middle pre rest current (length pre) eq_refl).
    reflexivity. }
  rewrite Hbody.
  replace (pre ++ current :: rest)%list with ((pre ++ [current]) ++ rest)%list
    by (now rewrite <- app_assoc).
  replace (S (length pre)) with (length (pre ++ [current]))
    by (rewrite length_app; simpl; lia).
  destruct (minDistance <=? distance_between kept current)%float.
  - rewrite (IH (pre ++ [current])%list (acc ++ [kept])%list current).
    now rewrite <- app_assoc.
  - apply (IH (pre ++ [current])%list acc kept).
Qed.

Lemma thinPoints_greedy (points : list point) :
  thinPoints points (Some minDistance) = greedy_thinning points minDistance.
Proof.
  destruct points as [|first [|second rest]]; [reflexivity | reflexivity |].
  unfold thinPoints, for_range, greedy_thinning.
  change (length (first :: second :: rest) <? 2)%nat with false. cbv iota.
  change (option_list (at_index (first :: second :: rest) 0)) with ([] ++ [first])%list.
  change (first :: second :: rest) with ([first] ++ second :: rest)%list at 1.
  replace (seq 1 (length (first :: second :: rest) - 1))
    with (seq (length [first]) (length (second :: rest)))
    by (simpl; f_equal; lia).
  apply (thin_fold (second :: rest) [first] [] first).
Qed.

Lemma thin_from_sublist (rest : list point) (kept : point) :
  sublist (thin_from minDistance kept rest) rest.
Proof.
  revert kept. induction rest as [|current rest IH]; intros kept; simpl.
  - constructor.
  - destruct (minDistance <=? distance_between kept current)%float.
    + apply sublist_skip, IH.
    + apply sublist_cons, IH.
Qed.



End ThinFacts.


(** ** The routing stage *)

Section ChunkFacts.
Import MapTracker Routing.
Local Open Scope list_scope.

Lemma chunks_of_nil (fuel : nat) : chunks_of fuel [] = [].
Proof. destruct fuel; reflexivity. Qed.

(** Fuel beyond the length of the list changes nothing. *)
Lemma chunks_of_more (fuel fuel' : nat) (pts : list point) :
  (length pts <= fuel)%nat -> (length pts <= fuel')%nat ->
  chunks_of fuel pts = chunks_of fuel' pts.
Proof.
  revert fuel' pts. induction fuel as [|fuel IH]; intros fuel' pts Hf Hf'.
  - destruct pts; [now rewrite !chunks_of_nil | simpl in Hf; lia].
  - destruct pts as [|x pts]; [now rewrite !chunks_of_nil|].
    destruct fuel' as [|fuel']; [simpl in Hf'; lia|].
    cbn [chunks_of]. f_equal. simpl in Hf, Hf'.
    apply IH; rewrite length_drop; simpl; lia.
Qed.

Lemma chunks_cons (x : point) (pts : list point) :
  chunks (x :: pts) = take 25 (x :: pts) :: chunks (drop 25 (x :: pts)).
Proof.
  unfold chunks. cbn [length chunks_of]. f_equal.
  apply chunks_of_more; rewrite length_drop; simpl; lia.
Qed.

Lemma chunks_of_concat (fuel : nat) (pts : list point) :
  (length pts <= fuel)%nat -> concat (chunks_of fuel pts) = pts.
Proof.
  revert pts. induction fuel as [|fuel IH]; intros pts Hf.
  - destruct pts; [reflexivity | simpl in Hf; lia].
  - destruct pts as [|x pts]; [reflexivity|].
    cbn [chunks_of concat]. rewrite IH.
    + apply take_drop.
    + rewrite length_drop. simpl in *. lia.
Qed.

Lemma chunks_of_bounded (fuel : nat) (pts : list point) :
  Forall (fun c => (1 <= length c <= 25)%nat) (chunks_of fuel pts).
Proof.
  revert pts. induction fuel as [|fuel IH]; intros pts; [constructor|].
  destruct pts as [|x pts]; [constructor|].
  cbn [chunks_of]. constructor; [|apply IH].
  rewrite length_take. cbn [length]. lia.
Qed.

Variable world : Services.

(** The loop of the code from index [i] is the loop over the chunks of what
    is left of the sequence, up to the first chunk of fewer than 2 points. *)
Lemma chunk_loop_serve (pts : list point) (fuel i : nat) (st : chunk_state) :
  (length pts - i < fuel)%nat ->
  chunk_loop world fuel pts i st
  = Some (serve world (attempted (chunks (drop i pts))) st).
Proof.
  revert i st. induction fuel as [|fuel IH]; intros i st Hf; [lia|].
  cbn [chunk_loop].
  destruct (i <? length pts)%nat eqn:Hi.
  - apply Nat.ltb_lt in Hi.
    assert (Hseg : slice i (Nat.min (i + 25) (length pts)) pts = take 25 (drop i pts)).
    { unfold slice.
      destruct (Nat.le_gt_cases (i + 25) (length pts)) as [Hle|Hgt].
      - rewrite Nat.min_l by assumption. f_equal. lia.
      - rewrite Nat.min_r by lia.
        rewrite !take_ge; [reflexivity | |]; rewrite length_drop; lia. }
    rewrite Hseg.
    destruct (drop i pts) as [|x rest] eqn:Hd.
    { apply (f_equal length) in Hd. rewrite length_drop in Hd. simpl in Hd. lia. }
    rewrite chunks_cons. cbn [attempted].
    destruct (length (take 25 (x :: rest)) <? 2)%nat; [reflexivity|].
    cbn [serve]. unfold request_of.
    assert (Hnext : drop 25 (x :: rest) = drop (i + 25) pts).
    { rewrite <- Hd, drop_drop. reflexivity. }
    rewrite Hnext.
    destruct (directions world (length (sent st)) (segment_url (take 25 (x :: rest))))
      as [[r|]|e]; [| |reflexivity].
    + unfold decodePolyline. apply IH. lia.
    + apply IH. lia.
  - apply Nat.ltb_ge in Hi. rewrite drop_ge by assumption. reflexivity.
Qed.

End ChunkFacts.

Section ServeFacts.
Import MapTracker Routing.
Local Open Scope list_scope.
Variable world : Services.

Lemma serve_sent (cs : list (list point)) (st : chunk_state) :
  snd (serve world cs st)
  = sent st ++ map request_of (until_throw world (length (sent st)) cs).
Proof.
  revert st. induction cs as [|c cs IH]; intros st; cbn [serve until_throw map].
  - now rewrite app_nil_r.
  - destruct (directions world (length (sent st)) (segment_url c)) as [[r|]|e];
      cbn [snd]; try reflexivity;
      rewrite IH; cbn [sent]; rewrite length_app, Nat.add_1_r, <- app_assoc;
      reflexivity.
Qed.

Lemma serve_quiet (cs : list (list point)) (st : chunk_state) :
  quiet world (length (sent st)) cs = true ->
  fst (serve world cs st)
  = Normal {| allPoints :=
                allPoints st ++ concat (map route_points (answered world (length (sent st)) cs));
              totalDist :=
                running_total (totalDist st) (answered world (length (sent st)) cs);
              sent := sent st ++ map request_of cs |}.
Proof.
  revert st. induction cs as [|c cs IH]; intros st Hq; cbn [serve answered quiet map] in *.
  - cbn. rewrite !app_nil_r. now destruct st.
  - destruct (directions world (length (sent st)) (segment_url c)) as [[r|]|e];
      [| |discriminate].
    + rewrite IH; cbn [sent allPoints totalDist];
        rewrite ?length_app, ?Nat.add_1_r; [|assumption].
      cbn [map concat running_total fold_left]. now rewrite <- !app_assoc.
    + rewrite IH; cbn [sent allPoints totalDist];
        rewrite ?length_app, ?Nat.add_1_r; [|assumption].
      now rewrite <- !app_assoc.
Qed.

Lemma serve_throw (cs : list (list point)) (st : chunk_state) :
  quiet world (length (sent st)) cs = false ->
  exists e, fst (serve world cs st) = Throw e.
Proof.
  revert st. induction cs as [|c cs IH]; intros st Hq; cbn [serve quiet] in *;
    [discriminate|].
  destruct (directions world (length (sent st)) (segment_url c)) as [[r|]|e].
  - apply IH. cbn [sent]. now rewrite length_app, Nat.add_1_r.
  - apply IH. cbn [sent]. now rewrite length_app, Nat.add_1_r.
  - now exists e.
Qed.

Lemma run_chunks_serve (pts : list point) :
  run_chunks world pts
  = serve world (attempted (chunks pts))
      {| allPoints := []; totalDist := 0%float; sent := [] |}.
Proof.
  unfold run_chunks, chunk_fuel.
  rewrite chunk_loop_serve by lia. reflexivity.
Qed.

(** What [fetchMapboxRoute] leaves: the route and the total of the completed
    chunks when no request fails, the state as it was when one does; and the
    requests it has sent. *)
Lemma fetchMapboxRoute_outcome (st : State) (pts : list point) :
  fetchMapboxRoute world st pts
  = (if quiet world 0 (attempted (chunks pts))
     then setTotalDistance
            (running_total 0%float (answered world 0 (attempted (chunks pts))))
            (setMapboxPoints
               (concat (map route_points (answered world 0 (attempted (chunks pts))))) st)
     else st,
     map request_of (until_throw world 0 (attempted (chunks pts)))).
Proof.
  unfold fetchMapboxRoute. rewrite run_chunks_serve.
  pose proof (serve_sent (attempted (chunks pts))
                {| allPoints := []; totalDist := 0%float; sent := [] |}) as Hs.
  destruct (quiet world 0 (attempted (chunks pts))) eqn:Hq.
  - pose proof (serve_quiet (attempted (chunks pts))
                  {| allPoints := []; totalDist := 0%float; sent := [] |} Hq) as Hf.
    destruct (serve world _ _) as [out reqs]. cbn [fst snd] in *. subst. reflexivity.
  - destruct (serve_throw (attempted (chunks pts))
                {| allPoints := []; totalDist := 0%float; sent := [] |} Hq) as (e & Hf).
    destruct (serve world _ _) as [out reqs]. cbn [fst snd] in *. subst. reflexivity.
Qed.

Lemma segment_of_request (cs : list (list point)) :
  map segment_of (map request_of cs) = cs.
Proof. induction cs as [|c cs IH]; [reflexivity|]. simpl. now rewrite IH. Qed.


End ServeFacts.

Section RoutingFacts.
Import MapTracker Routing.
Local Open Scope list_scope.
Variable world : Services.


Lemma fetchMapboxRoute_sent (st : State) (pts : list point) :
  map segment_of (snd (fetchMapboxRoute world st pts))
  = until_throw world 0 (attempted (chunks pts)).
Proof. rewrite fetchMapboxRoute_outcome. cbn [snd]. apply segment_of_request. Qed.


End RoutingFacts.




(** ** The whole pipeline *)

Section ProcessFacts.
Context `{MathLib}.
Import MapTracker Routing.
Local Open Scope list_scope.
Variable world : Services.


Lemma processPoints_enough (st : State) (rawData : list element) :
  (length (extract rawData) <? 2)%nat = false ->
  processPoints world st (Some rawData)
  = (fetchORSSnap world (before_snap st (extract rawData)) (extract rawData),
     Normal Undefined).
Proof.
  intros Hlen. unfold processPoints. rewrite Hlen.
  fold (refined (extract rawData)).
  change (match refined (extract rawData) with
          | [] => _
          | first :: _ => _
          end) with (before_snap st (extract rawData)).
  now destruct (fetchORSSnap world _ _).
Qed.

Lemma processPoints_few (st : State) (rawData : list element) :
  (length (extract rawData) <? 2)%nat = true ->
  processPoints world st (Some rawData)
  = (setPoints (extract rawData) st, [], Normal Undefined).
Proof. intros Hlen. unfold processPoints. now rewrite Hlen. Qed.




End ProcessFacts.


Section SampleRouting.
Local Existing Instance Sample.engine.



End SampleRouting.

(** ** The accuracy filter *)

Section FilterFacts.
Import MapTracker.
Local Open Scope list_scope.

(** A number that [!] takes for false and that is not [NaN] is a zero, and
    a zero is below 15. *)
Lemma zero_below_15 (a : number) : is_zero a = true -> (a <? 15)%float = true.
Proof.
  unfold is_zero. rewrite FloatAxioms.eqb_spec, FloatAxioms.ltb_spec.
  change (Prim2SF zero) with (S754_zero false).
  destruct (Prim2SF a) as [s|s| |s m e]; try discriminate.
  - intros _. vm_compute. reflexivity.
  - destruct s; discriminate.
  - destruct s; discriminate.
Qed.

Lemma passes_fix (e : element) : is_fix e = true -> passes e = accuracy_ok e.
Proof.
  unfold is_fix, passes, accuracy_ok.
  destruct (coordinates e) as [[|lon [|lat [|]]]|]; try discriminate.
  destruct (accuracy e) as [a|]; [|reflexivity].
  cbn [length Nat.eqb andb]. intros Hnan. apply negb_true_iff in Hnan.
  unfold falsy. rewrite Hnan, orb_false_r.
  destruct (is_zero a) eqn:Hz; [|reflexivity].
  now rewrite (zero_below_15 a Hz).
Qed.

Lemma extract_fold (rawData : list element) (acc : list point) :
  fold_left extract_step rawData acc
  = acc ++ omap extracted_point (List.filter passes rawData).
Proof.
  revert acc. induction rawData as [|e rawData IH]; intros acc; cbn [fold_left List.filter].
  - cbn. now rewrite app_nil_r.
  - rewrite IH. unfold extract_step.
    destruct (passes e) eqn:Hp; [|reflexivity].
    cbn [omap list_omap]. unfold passes in Hp.
    destruct (extracted_point e) as [pt|]; cbn; now rewrite <- ?app_assoc, ?app_nil_r.
Qed.

Lemma filter_fixes (rawData : list element) :
  forallb is_fix rawData = true ->
  List.filter passes rawData = List.filter accuracy_ok rawData.
Proof.
  induction rawData as [|e rawData IH]; [reflexivity|].
  cbn [forallb List.filter]. intros Hf. apply andb_true_iff in Hf as [He Hf].
  now rewrite (passes_fix e He), (IH Hf).
Qed.

Lemma extracted_fixes (rawData : list element) :
  forallb is_fix rawData = true ->
  length (omap extracted_point rawData) = length rawData.
Proof.
  induction rawData as [|e rawData IH]; [reflexivity|].
  cbn [forallb]. intros Hf. apply andb_true_iff in Hf as [He Hf].
  cbn [omap list_omap]. unfold is_fix in He. unfold extracted_point.
  destruct (coordinates e) as [[|lon [|lat [|]]]|]; try discriminate.
  cbn [length]. f_equal. now apply IH.
Qed.

Lemma forallb_filter (f g : element -> bool) (rawData : list element) :
  forallb f rawData = true -> forallb f (List.filter g rawData) = true.
Proof.
  induction rawData as [|e rawData IH]; [reflexivity|].
  cbn [forallb List.filter]. intros Hf. apply andb_true_iff in Hf as [He Hf].
  destruct (g e); cbn [forallb]; [rewrite He|]; now apply IH.
Qed.

End FilterFacts.

(** C5, as the code has it: of the input fixes the filter keeps exactly
    those whose accuracy is absent or strictly below 15 (of the accuracies 5,
    20, 8 only the second goes). When fewer than 2 survive, nothing downstream
    runs and nothing is raised: the call returns, with no value, having put
    the survivors in the raw sequence, sent no request, and left the refined,
    snapped and routed sequences, the total distance and the map center as
    they were. *)
Theorem processPoints_accuracy_filter `{MathLib} (world : MapTracker.Services)
    (st : MapTracker.State) (rawData : list MapTracker.element) :
  forallb is_fix rawData = true ->
  MapTracker.extract rawData
  = omap MapTracker.extracted_point (List.filter accuracy_ok rawData) /\
  length (MapTracker.extract rawData) = length (List.filter accuracy_ok rawData) /\
  ((length (List.filter accuracy_ok rawData) < 2)%nat ->
   MapTracker.processPoints world st (Some rawData)
   = (MapTracker.setPoints (MapTracker.extract rawData) st, [], Normal Undefined)) /\
  List.filter accuracy_ok Sample.three_fixes
  = [Sample.fix_at 13.0827 80.2707 (Some 5); Sample.fix_at 13.0835 80.2715 (Some 8)]%float.
Proof.
  intros Hfix.
  assert (He : MapTracker.extract rawData
               = omap MapTracker.extracted_point (List.filter accuracy_ok rawData)).
  { unfold MapTracker.extract. rewrite extract_fold. cbn [app].
    now rewrite filter_fixes. }
  assert (Hl : length (MapTracker.extract rawData)
               = length (List.filter accuracy_ok rawData)).
  { rewrite He. apply extracted_fixes. now apply forallb_filter. }
  split; [exact He|]. split; [exact Hl|]. split; [|vm_compute; reflexivity].
  intros Hfew. apply processPoints_few. rewrite Hl. now apply Nat.ltb_lt.
Qed.

Section SampleDays.
Local Existing Instance Sample.engine.

(** A day with two fixes, of which one passes: the run stops after the
    filter. *)
Lemma processPoints_accuracy_filter_witness :
  MapTracker.processPoints Sample.world MapTracker.initial
    (Some [Sample.fix_at 13.0827 80.2707 (Some 5); Sample.fix_at 13.0830 80.2710 (Some 20)]%float)
  = (MapTracker.setPoints
       [{| latitude := "13.0827"; longitude := "80.2707";
           createdAt := Str "2025-10-16T08:00:00Z" |}]
       MapTracker.initial,
     [], Normal Undefined).
Proof.
  pose proof (@processPoints_accuracy_filter Sample.engine Sample.world MapTracker.initial
                [Sample.fix_at 13.0827 80.2707 (Some 5);
                 Sample.fix_at 13.0830 80.2710 (Some 20)]%float eq_refl)
    as (_ & _ & Hfew & _).
  rewrite Hfew; [reflexivity | vm_compute; lia].
Defined.

(** C5, as the specification words it, fails: after a day that went through,
    a day whose only fix is too coarse leaves the result of the day before in
    place, not an empty one. *)
Lemma insufficient_data_keeps_old_result :
  let day1 := fst (fst (MapTracker.processPoints Sample.world MapTracker.initial
                          (Some Sample.three_fixes))) in
  let coarse := [Sample.fix_at 13.09 80.28 (Some 20)]%float in
  let day2 := MapTracker.processPoints Sample.world day1 (Some coarse) in
  length (List.filter accuracy_ok coarse) = 0%nat /\
  snd day2 = Normal Undefined /\
  snd (fst day2) = [] /\
  MapTracker.points (fst (fst day2)) = [] /\
  MapTracker.filteredPoints (fst (fst day2))
  = [{| latitude := "13.0827000"; longitude := "80.2707000";
        createdAt := Str "2025-10-16T08:00:00Z" |};
     {| latitude := "13.0830073"; longitude := "80.2709610";
        createdAt := Str "2025-10-16T08:00:00Z" |}] /\
  ~ empty_result (fst (fst day2)).
Proof.
  cbv zeta.
  split; [reflexivity|]. split; [vm_compute; reflexivity|].
  split; [vm_compute; reflexivity|]. split; [vm_compute; reflexivity|].
  split; [vm_compute; reflexivity|].
  intros [Hf _]. vm_compute in Hf. discriminate Hf.
Qed.

End SampleDays.

(** * Further properties of the code *)

Local Open Scope list_scope.

(** ** The smoother reads its input once, front to back *)

(** X1: the smoother is causal: what it returns for a sequence is the
    beginning of what it returns for any longer sequence that starts with it;
    points that come later never change the outputs before them. *)
Theorem applyKalmanFilter_online (points more : list point) :
  applyKalmanFilter points `prefix_of` applyKalmanFilter (points ++ more).
Proof.
  destruct points as [|first rest]; [apply prefix_nil|].
  unfold applyKalmanFilter. cbn [app].
  change (first :: rest ++ more) with ((first :: rest) ++ more).
  rewrite fold_left_app.
  destruct (fold_step_smoothed more
              (fold_left Kalman.step (first :: rest) (Kalman.start first)))
    as (outs & -> & _).
  now exists outs.
Qed.

(** ** What the two decimations keep *)

Section SublistFacts.
Context `{MathLib}.
Local Open Scope list_scope.

Lemma filter_sublist {A : Type} (f : A -> bool) (l : list A) :
  sublist (List.filter f l) l.
Proof.
  induction l as [|x l IH]; [constructor|].
  cbn [List.filter]. destruct (f x); [now apply sublist_skip | now apply sublist_cons].
Qed.

Lemma omap_sublist {A B : Type} (g : A -> option B) (l1 l2 : list A) :
  sublist l1 l2 -> sublist (omap g l1) (omap g l2).
Proof.
  induction 1 as [|x l1 l2 _ IH|x l1 l2 _ IH]; cbn [omap list_omap].
  - constructor.
  - destruct (g x); [now apply sublist_skip | assumption].
  - destruct (g x); [now apply sublist_cons | assumption].
Qed.

Lemma map_sublist {A B : Type} (g : A -> B) (l1 l2 : list A) :
  sublist l1 l2 -> sublist (map g l1) (map g l2).
Proof.
  induction 1 as [|x l1 l2 _ IH|x l1 l2 _ IH]; cbn [map].
  - constructor.
  - now apply sublist_skip.
  - now apply sublist_cons.
Qed.

(** Reading the indices [i], ..., [i + k - 1] of a list gives the [k]
    elements from [i] on. *)
Lemma omap_indices {A : Type} (l : list A) (k i : nat) :
  omap (at_index l) (seq i k) = take k (drop i l).
Proof.
  revert i. induction k as [|k IH]; intros i; [reflexivity|].
  cbn [seq omap list_omap]. unfold at_index at 1.
  destruct (l !! i) as [x|] eqn:E.
  - rewrite (drop_S l x i E). cbn [take]. now rewrite <- IH.
  - apply lookup_ge_None in E. rewrite IH.
    rewrite !drop_ge by lia. now rewrite take_nil.
Qed.

Lemma split_last {A : Type} (xs : list A) (x : A) :
  x :: xs = take (length xs) (x :: xs) ++ [List.last xs x].
Proof.
  revert x. induction xs as [|y ys IH]; intros x; [reflexivity|].
  cbn [length take app]. f_equal.
  rewrite last_cons_default. apply IH.
Qed.

(** What [removeZigzags] returns on three points or more. *)
Lemma removeZigzags_long (a b c : point) (rest : list point) (threshold : option number) :
  removeZigzags (a :: b :: c :: rest) threshold
  = a :: omap (at_index (a :: b :: c :: rest))
           (List.filter (gentle_turn (a :: b :: c :: rest) (default 60%float threshold))
                        (seq 1 (S (length rest))))
      ++ [List.last rest c].
Proof.
  unfold removeZigzags, for_range.
  change (length (a :: b :: c :: rest) <? 3)%nat with false. cbv iota.
  rewrite zigzag_fold.
  replace (length (a :: b :: c :: rest) - 1 - 1)%nat with (S (length rest))
    by (simpl; lia).
  change (at_index (a :: b :: c :: rest) 0) with (Some a).
  replace (at_index (a :: b :: c :: rest) (length (a :: b :: c :: rest) - 1))
    with (Some (List.last rest c)); [reflexivity|].
  unfold at_index. simpl length.
  replace (S (S (S (length rest))) - 1)%nat with (S (S (length rest))) by lia.
  change ((a :: b :: c :: rest) !! S (S (length rest))) with ((c :: rest) !! length rest).
  now rewrite lookup_final.
Qed.

Lemma removeZigzags_is_sublist (points : list point) (threshold : option number) :
  sublist (removeZigzags points threshold) points.
Proof.
  destruct points as [|a [|b [|c rest]]]; try reflexivity.
  rewrite removeZigzags_long.
  apply sublist_skip.
  assert (E : take (S (length rest)) (drop 1 (a :: b :: c :: rest)) ++ [List.last rest c]
              = b :: c :: rest).
  { cbn [drop]. rewrite <- (last_cons_default rest c b).
    symmetry. apply (split_last (c :: rest) b). }
  match goal with
  | |- sublist ?out _ =>
      enough (Hs : sublist out
                     (take (S (length rest)) (drop 1 (a :: b :: c :: rest))
                      ++ [List.last rest c]))
        by (rewrite E in Hs; exact Hs)
  end.
  apply sublist_app; [|reflexivity].
  rewrite <- (omap_indices (a :: b :: c :: rest) (S (length rest)) 1).
  apply omap_sublist, filter_sublist.
Qed.

End SublistFacts.

(** X2: whatever the threshold, [removeZigzags] only drops points: its
    output is a subsequence of its input (same points, same order), so it is
    never longer than the input. *)
Theorem removeZigzags_sublist `{MathLib} (points : list point)
    (threshold : option number) :
  sublist (removeZigzags points threshold) points /\
  (length (removeZigzags points threshold) <= length points)%nat.
Proof.
  pose proof (removeZigzags_is_sublist points threshold) as Hs.
  split; [exact Hs | now apply sublist_length].
Qed.

Section ThinMore.
Context `{MathLib}.

Lemma thin_from_again (d : number) (rest : list point) (kept : point) :
  thin_from d kept (thin_from d kept rest) = thin_from d kept rest.
Proof.
  revert kept. induction rest as [|current rest IH]; intros kept; [reflexivity|].
  cbn [thin_from].
  destruct (d <=? distance_between kept current)%float eqn:Hd.
  - cbn [thin_from]. rewrite Hd. now rewrite IH.
  - apply IH.
Qed.

Lemma leb_nan (x : number) : (nan <=? x)%float = false.
Proof. rewrite leb_spec. reflexivity. Qed.

Lemma ltb_nan (x : number) : (x <? nan)%float = false.
Proof.
  rewrite ltb_spec. change (Prim2SF nan) with S754_nan.
  unfold SFltb. now destruct (Prim2SF x) as [s|s| |s m e].
Qed.

Lemma thin_from_nan (rest : list point) (kept : point) :
  thin_from nan kept rest = [].
Proof.
  induction rest as [|current rest IH]; [reflexivity|].
  cbn [thin_from]. now rewrite leb_nan.
Qed.

End ThinMore.

(** X3: thinning is idempotent: thinning an already thinned sequence with
    the same threshold changes nothing. *)
Theorem thinPoints_idempotent `{MathLib} (points : list point) (d : number) :
  thinPoints (thinPoints points (Some d)) (Some d) = thinPoints points (Some d).
Proof.
  rewrite !thinPoints_greedy.
  destruct points as [|first rest]; [reflexivity|].
  cbn [greedy_thinning]. now rewrite thin_from_again.
Qed.

(** X4: a threshold that is [NaN] makes every comparison fail: thinning then
    keeps the first point only, and [removeZigzags] the two end points only
    (of three points or more). *)
Theorem nan_threshold_keeps_ends `{MathLib} (a b c : point) (rest : list point) :
  (forall points : list point, thinPoints points (Some nan) = take 1 points) /\
  removeZigzags (a :: b :: c :: rest) (Some nan) = [a; List.last rest c].
Proof.
  split.
  - intros points. rewrite thinPoints_greedy.
    destruct points as [|first others]; [reflexivity|].
    cbn [greedy_thinning]. now rewrite thin_from_nan.
  - rewrite removeZigzags_long. cbn [default].
    replace (List.filter _ _) with (@nil nat); [reflexivity|].
    generalize (seq 1 (S (length rest))). intros l.
    induction l as [|i l IH]; [reflexivity|].
    cbn [List.filter]. unfold gentle_turn at 1.
    destruct (turn_at _ i); [rewrite ltb_nan|]; exact IH.
Qed.

(** ** How much the decoder returns *)

Section DecodeSize.
Variable encoded : string.

Lemma read_group_advances (fuel : nat) (st st' : scan) :
  read_group fuel encoded st = Some st' -> (index st < index st')%nat.
Proof.
  revert st. induction fuel as [|fuel IH]; intros st Hr; [discriminate|].
  cbn [read_group] in Hr.
  destruct (group_step encoded st) as [st1 again] eqn:E.
  pose proof (group_step_index encoded st) as Hi. rewrite E in Hi. simpl in Hi.
  destruct again.
  - apply IH in Hr. lia.
  - injection Hr as <-. lia.
Qed.

(** Each point costs at least two positions of the scan. *)
Lemma decode_loop_count (fuel from : nat) (lat lng : number)
    (points decoded : list (number * number)) :
  decode_loop fuel encoded from lat lng points = Some decoded ->
  (2 * length decoded <= 2 * length points + (S (String.length encoded) - from))%nat.
Proof.
  revert from lat lng points.
  induction fuel as [|fuel IH]; intros from lat lng points Hd; [discriminate|].
  cbn [decode_loop] in Hd.
  destruct (from <? String.length encoded)%nat eqn:Hlt.
  - apply Nat.ltb_lt in Hlt.
    destruct (read_group (S fuel) encoded _) as [g1|] eqn:E1; [|discriminate].
    destruct (read_group (S fuel) encoded _) as [g2|] eqn:E2 in Hd; [|discriminate].
    apply read_group_advances in E1, E2. simpl in E1, E2.
    apply IH in Hd. rewrite length_app in Hd. simpl in Hd. lia.
  - injection Hd as <-. lia.
Qed.

End DecodeSize.

(** X5: the decoder returns at most one point for every two characters
    (rounded up), and returns no point exactly on the empty string. *)
Theorem decodePolyline_size (encoded : string) :
  exists decoded : list (number * number),
    decodePolyline encoded = Normal decoded /\
    (2 * length decoded <= S (String.length encoded))%nat /\
    (decoded = [] <-> encoded = ""%string).
Proof.
  destruct (decode_fuel_enough encoded) as (decoded & Hd & Hfuel).
  exists decoded. split; [exact Hd|]. split.
  - specialize (Hfuel 0%nat).
    apply decode_loop_count in Hfuel. simpl in Hfuel. lia.
  - split.
    + intros ->. destruct encoded as [|c s]; [reflexivity|].
      exfalso. refine (decode_nonempty (String c s) [] _ Hd eq_refl). simpl; lia.
    + intros ->. vm_compute in Hd. now injection Hd as <-.
Qed.

(** ** The requests of the routing stage *)

Section RequestFacts.
Import MapTracker Routing.
Variable world : Services.

Lemma attempted_prefix (cs : list (list point)) : attempted cs `prefix_of` cs.
Proof.
  induction cs as [|c cs IH]; [apply prefix_nil|].
  cbn [attempted]. destruct (length c <? 2)%nat; [apply prefix_nil | now apply prefix_cons].
Qed.

Lemma attempted_sizes (cs : list (list point)) :
  Forall (fun c => (2 <= length c)%nat) (attempted cs).
Proof.
  induction cs as [|c cs IH]; [constructor|].
  cbn [attempted]. destruct (length c <? 2)%nat eqn:Hc; [constructor|].
  apply Nat.ltb_ge in Hc. now constructor.
Qed.

Lemma until_throw_prefix (n : nat) (cs : list (list point)) :
  until_throw world n cs `prefix_of` cs.
Proof.
  revert n. induction cs as [|c cs IH]; intros n; [apply prefix_nil|].
  cbn [until_throw]. apply prefix_cons.
  destruct (directions world n (segment_url c)); [apply IH | apply prefix_nil].
Qed.

Lemma concat_prefix {A : Type} (l1 l2 : list (list A)) :
  l1 `prefix_of` l2 -> concat l1 `prefix_of` concat l2.
Proof. intros [k ->]. rewrite concat_app. now exists (concat k). Qed.

Lemma Forall_prefix {A : Type} (P : A -> Prop) (l1 l2 : list A) :
  l1 `prefix_of` l2 -> Forall P l2 -> Forall P l1.
Proof. intros [k ->] Hf. now apply Forall_app in Hf as [Hf _]. Qed.

Lemma attempted_few (pts : list point) :
  (length pts < 2)%nat -> attempted (chunks pts) = [].
Proof.
  destruct pts as [|x [|y pts]]; [reflexivity | reflexivity | simpl; lia].
Qed.


End RequestFacts.

(** X6: with fewer than 2 points to route, [fetchMapboxRoute] sends no
    request and still writes its results: the routed sequence becomes empty
    and the total distance 0, whatever they were. *)
Theorem fetchMapboxRoute_few (world : MapTracker.Services) (st : MapTracker.State)
    (pts : list point) :
  (length pts < 2)%nat ->
  MapTracker.fetchMapboxRoute world st pts
  = (MapTracker.setTotalDistance 0%float (MapTracker.setMapboxPoints [] st), []).
Proof.
  intros Hlen. rewrite fetchMapboxRoute_outcome.
  now rewrite (attempted_few pts Hlen).
Qed.

(** One snapped point, after a day that left 1200 m. *)
Lemma fetchMapboxRoute_few_witness :
  MapTracker.totalDistance
    (fst (MapTracker.fetchMapboxRoute Sample.world
            (MapTracker.setTotalDistance 1200%float MapTracker.initial) (Sample.row 1)))
  = 0%float.
Proof.
  rewrite (fetchMapboxRoute_few Sample.world
             (MapTracker.setTotalDistance 1200%float MapTracker.initial) (Sample.row 1));
    [reflexivity | vm_compute; lia].
Defined.



(** X8: every directions request asks for 2 to 25 points, and the
    requested segments, put end to end, are the beginning of the snapped
    sequence: chunks never overlap, none is skipped, no point is asked
    twice. *)
Theorem fetchMapboxRoute_segments (world : MapTracker.Services)
    (st : MapTracker.State) (pts : list point) :
  Forall (fun c => (2 <= length c <= 25)%nat)
    (map Routing.segment_of (snd (MapTracker.fetchMapboxRoute world st pts))) /\
  concat (map Routing.segment_of (snd (MapTracker.fetchMapboxRoute world st pts)))
    `prefix_of` pts.
Proof.
  rewrite fetchMapboxRoute_sent.
  pose proof (until_throw_prefix world 0 (Routing.attempted (Routing.chunks pts))) as Hu.
  pose proof (attempted_prefix (Routing.chunks pts)) as Ha.
  split.
  - apply (Forall_prefix _ _ _ Hu).
    pose proof (attempted_sizes (Routing.chunks pts)) as H2.
    pose proof (Forall_prefix _ _ _ Ha (chunks_of_bounded (length pts) pts)) as H25.
    rewrite Forall_forall in *. intros c Hc.
    specialize (H2 c Hc). specialize (H25 c Hc). lia.
  - rewrite <- (chunks_of_concat (length pts) pts) at 2 by lia.
    apply concat_prefix. etransitivity; [exact Hu | exact Ha].
Qed.

(** ** What the services can and cannot change *)

Section SnapFacts.
Context `{MathLib}.
Import MapTracker Routing.
Variable world : Services.

(** What [fetchORSSnap] leaves, case by case. *)
Lemma fetchORSSnap_outcome (st : State) (pointsToSnap : list point) :
  fetchORSSnap world st pointsToSnap
  = match snap world (snap_locations pointsToSnap) with
    | Throw _ => (st, [SnapRequest (snap_locations pointsToSnap)])
    | Normal found =>
        let snapped := snapped_points world found in
        let cs := attempted (chunks snapped) in
        (if quiet world 0 cs
         then setTotalDistance (running_total 0%float (answered world 0 cs))
                (setMapboxPoints (concat (map route_points (answered world 0 cs)))
                   (setOrsPoints snapped st))
         else setOrsPoints snapped st,
         SnapRequest (snap_locations pointsToSnap)
           :: map request_of (until_throw world 0 cs))
    end.
Proof.
  unfold fetchORSSnap. fold (snap_locations pointsToSnap).
  destruct (snap world (snap_locations pointsToSnap)) as [found|e]; [|reflexivity].
  cbv zeta. now rewrite fetchMapboxRoute_outcome.
Qed.

(** No service touches the raw sequence, the refined sequence or the map
    center. *)
Lemma fetchORSSnap_keeps (st : State) (pointsToSnap : list point) :
  points (fst (fetchORSSnap world st pointsToSnap)) = points st /\
  filteredPoints (fst (fetchORSSnap world st pointsToSnap)) = filteredPoints st /\
  center (fst (fetchORSSnap world st pointsToSnap)) = center st.
Proof.
  rewrite fetchORSSnap_outcome.
  destruct (snap world (snap_locations pointsToSnap)) as [found|e];
    [|repeat split].
  cbv zeta. destruct (quiet world 0 _); repeat split.
Qed.

Lemma before_snap_fields (st : State) (extractedPoints : list point) :
  points (before_snap st extractedPoints) = extractedPoints /\
  filteredPoints (before_snap st extractedPoints) = refined extractedPoints /\
  orsPoints (before_snap st extractedPoints) = orsPoints st /\
  mapboxPoints (before_snap st extractedPoints) = mapboxPoints st.
Proof. unfold before_snap. destruct (refined extractedPoints); repeat split. Qed.

End SnapFacts.


(** X10: when the snap service matches fewer than 2 of the points, the run
    ends with an empty routed sequence and a total distance of 0 (the
    refined-path distance is overwritten), without a directions request. *)
Theorem processPoints_few_matches `{MathLib} (world : MapTracker.Services)
    (st : MapTracker.State) (rawData : list MapTracker.element)
    (found : list (option (number * number))) :
  (length (MapTracker.extract rawData) <? 2)%nat = false ->
  MapTracker.snap world (snap_locations (MapTracker.extract rawData)) = Normal found ->
  (length (omap id found) < 2)%nat ->
  MapTracker.totalDistance (fst (fst (MapTracker.processPoints world st (Some rawData))))
  = 0%float /\
  MapTracker.mapboxPoints (fst (fst (MapTracker.processPoints world st (Some rawData))))
  = [] /\
  MapTracker.orsPoints (fst (fst (MapTracker.processPoints world st (Some rawData))))
  = MapTracker.snapped_points world found /\
  snd (fst (MapTracker.processPoints world st (Some rawData)))
  = [MapTracker.SnapRequest (snap_locations (MapTracker.extract rawData))].
Proof.
  intros Hlen Hsnap Hfew.
  rewrite (processPoints_enough world st rawData Hlen). cbn [fst snd].
  rewrite fetchORSSnap_outcome, Hsnap. cbv zeta.
  rewrite attempted_few; [repeat split|].
  unfold MapTracker.snapped_points. now rewrite length_imap.
Qed.

(** X11: the services have no say in the raw and refined sequences: after
    any run on an array of fixes the raw sequence is what the filter
    extracted, and when at least 2 fixes pass, the refined sequence is the
    output of the three refinement stages, whether the snap and directions
    requests succeed or fail. *)
Theorem processPoints_refinement `{MathLib} (world : MapTracker.Services)
    (st : MapTracker.State) (rawData : list MapTracker.element) :
  MapTracker.points (fst (fst (MapTracker.processPoints world st (Some rawData))))
  = MapTracker.extract rawData /\
  MapTracker.filteredPoints (fst (fst (MapTracker.processPoints world st (Some rawData))))
  = if (length (MapTracker.extract rawData) <? 2)%nat
    then MapTracker.filteredPoints st
    else refined (MapTracker.extract rawData).
Proof.
  destruct (length (MapTracker.extract rawData) <? 2)%nat eqn:Hlen.
  - rewrite (processPoints_few world st rawData Hlen). split; reflexivity.
  - rewrite (processPoints_enough world st rawData Hlen). cbn [fst].
    destruct (fetchORSSnap_keeps world (before_snap st (MapTracker.extract rawData))
                (MapTracker.extract rawData)) as (-> & -> & _).
    split; apply before_snap_fields.
Qed.

Section SampleSnap.
Local Existing Instance Sample.engine.


(** The three fixes of the example, none of them matched. *)
Lemma processPoints_few_matches_witness :
  MapTracker.totalDistance
    (fst (fst (MapTracker.processPoints world_matching_nothing MapTracker.initial
                 (Some Sample.three_fixes))))
  = 0%float.
Proof.
  apply (@processPoints_few_matches Sample.engine world_matching_nothing MapTracker.initial
           Sample.three_fixes [None; None] eq_refl eq_refl).
  vm_compute. lia.
Defined.

End SampleSnap.

(** ** The map center *)

Section CenterFacts.
Context `{MathLib}.
Import MapTracker.

Lemma applyKalmanFilter_head (first : point) (rest : list point) :
  head (applyKalmanFilter (first :: rest))
  = Some {| latitude := toFixed (first_estimate (parseFloat (latitude first))) 7;
            longitude := toFixed (first_estimate (parseFloat (longitude first))) 7;
            createdAt := createdAt first |}.
Proof.
  unfold applyKalmanFilter. cbn [fold_left].
  match goal with
  | |- head (Kalman.smoothed (fold_left _ _ ?st)) = _ =>
      destruct (fold_step_smoothed rest st) as (outs & -> & _)
  end.
  cbn [Kalman.start Kalman.step Kalman.smoothed Kalman.p Kalman.xLat Kalman.xLng app head].
  f_equal. f_equal; apply toFixed_first_update; reflexivity.
Qed.

Lemma removeZigzags_head (points : list point) (threshold : option number) :
  head (removeZigzags points threshold) = head points.
Proof.
  destruct points as [|a [|b [|c rest]]]; try reflexivity.
  now rewrite removeZigzags_long.
Qed.

Lemma thinPoints_head (points : list point) (d : number) :
  head (thinPoints points (Some d)) = head points.
Proof. rewrite thinPoints_greedy. now destruct points. Qed.

Lemma refined_head (first : point) (rest : list point) :
  head (refined (first :: rest))
  = Some {| latitude := toFixed (first_estimate (parseFloat (latitude first))) 7;
            longitude := toFixed (first_estimate (parseFloat (longitude first))) 7;
            createdAt := createdAt first |}.
Proof.
  unfold refined. now rewrite thinPoints_head, removeZigzags_head, applyKalmanFilter_head.
Qed.

End CenterFacts.

(** X12: after a run in which at least 2 fixes pass the filter, the map is
    centered on the first of them, its coordinates rounded to 7 decimals,
    which is also the first refined point (the start marker); neither the
    later fixes, nor the engine's [Math], nor the services change that. *)
Theorem processPoints_center `{MathLib} (world : MapTracker.Services)
    (st : MapTracker.State) (rawData : list MapTracker.element)
    (first second : point) (rest : list point) :
  MapTracker.extract rawData = first :: second :: rest ->
  let after := fst (fst (MapTracker.processPoints world st (Some rawData))) in
  MapTracker.center after
  = (parseFloat (toFixed (first_estimate (parseFloat (latitude first))) 7),
     parseFloat (toFixed (first_estimate (parseFloat (longitude first))) 7)) /\
  head (MapTracker.filteredPoints after)
  = Some {| latitude := toFixed (first_estimate (parseFloat (latitude first))) 7;
            longitude := toFixed (first_estimate (parseFloat (longitude first))) 7;
            createdAt := createdAt first |}.
Proof.
  intros Hx after. subst after.
  assert (Hlen : (length (MapTracker.extract rawData) <? 2)%nat = false)
    by (now rewrite Hx).
  rewrite (processPoints_enough world st rawData Hlen). cbn [fst].
  destruct (fetchORSSnap_keeps world (before_snap st (MapTracker.extract rawData))
              (MapTracker.extract rawData)) as (_ & -> & ->).
  destruct (before_snap_fields st (MapTracker.extract rawData)) as (_ & -> & _).
  rewrite Hx. pose proof (refined_head first (second :: rest)) as Hh.
  split; [|exact Hh].
  unfold before_snap.
  destruct (refined (first :: second :: rest)) as [|r0 rs]; [discriminate Hh|].
  injection Hh as ->. reflexivity.
Qed.

Section SampleCenter.
Local Existing Instance Sample.engine.

(** The three fixes of the example: the map is centered on the first one. *)
Lemma processPoints_center_witness :
  MapTracker.center
    (fst (fst (MapTracker.processPoints Sample.world MapTracker.initial
                 (Some Sample.three_fixes))))
  = (13.0827, 80.2707)%float.
Proof.
  destruct (@processPoints_center Sample.engine Sample.world MapTracker.initial
              Sample.three_fixes
              {| latitude := "13.0827"; longitude := "80.2707";
                 createdAt := Str "2025-10-16T08:00:00Z" |}
              {| latitude := "13.0835"; longitude := "80.2715";
                 createdAt := Str "2025-10-16T08:00:00Z" |}
              [] eq_refl) as [Hc _].
  rewrite Hc. vm_compute. reflexivity.
Defined.

End SampleCenter.

(** ** The filter, element by element *)

(** X13: the accuracy filter looks at one element at a time: filtering two
    arrays one after the other is filtering the two of them together, and the
    filter returns at most as many points as it gets elements. *)
Theorem extract_app (rawData more : list MapTracker.element) :
  MapTracker.extract (rawData ++ more)
  = MapTracker.extract rawData ++ MapTracker.extract more /\
  (length (MapTracker.extract rawData) <= length rawData)%nat.
Proof.
  unfold MapTracker.extract. rewrite !extract_fold. cbn [app]. split.
  - now rewrite List.filter_app, omap_app.
  - etransitivity; [apply sublist_length, (omap_sublist _ _ rawData), filter_sublist|].
    clear. induction rawData as [|e rawData IH]; [reflexivity|].
    cbn [omap list_omap length].
    destruct (MapTracker.extracted_point e); cbn [length]; lia.
Qed.

(** ** The path length, point by point *)

Section DistanceFacts.
Context `{MathLib}.
Import MapTracker.

Lemma fold_left_agree {A B : Type} (f g : A -> B -> A) (l : list B) (a : A) :
  (forall x, In x l -> forall s, f s x = g s x) ->
  fold_left f l a = fold_left g l a.
Proof.
  revert a. induction l as [|x l IH]; intros a Hfg; [reflexivity|].
  cbn [fold_left]. rewrite (Hfg x (or_introl eq_refl)).
  apply IH. intros y Hy. apply Hfg. now right.
Qed.

Lemma path_distance_extend (first final : point) (rest : list point) :
  path_distance (first :: rest ++ [final])
  = (path_distance (first :: rest)
     + distance_between (List.last rest first) final)%float.
Proof.
  unfold path_distance, for_range.
  replace (length (first :: rest ++ [final]) - 1 - 0)%nat with (S (length rest))
    by (cbn [length]; rewrite length_app; simpl; lia).
  replace (length (first :: rest) - 1 - 0)%nat with (length rest)
    by (cbn [length]; lia).
  rewrite seq_S, fold_left_app. cbn [fold_left Nat.add].
  change (first :: rest ++ [final]) with ((first :: rest) ++ [final]).
  unfold at_index at 1 2.
  rewrite (lookup_app_l (first :: rest) [final] (length rest)) by (simpl; lia).
  rewrite lookup_final.
  rewrite (list_lookup_middle (first :: rest) [] final (length rest + 1))
    by (simpl; lia).
  f_equal. apply fold_left_agree.
  intros i Hi s. apply in_seq in Hi. unfold at_index.
  rewrite !(lookup_app_l (first :: rest) [final]) by (simpl; lia).
  reflexivity.
Qed.

End DistanceFacts.

(** X14: the path length grows point by point: one more point at the end
    adds its distance from the point that was last, to the length of the path
    so far; a path of one point has length 0. *)
Theorem path_distance_snoc `{MathLib} (first final : point) (rest : list point) :
  MapTracker.path_distance (first :: rest ++ [final])
  = (MapTracker.path_distance (first :: rest)
     + distance_between (List.last rest first) final)%float /\
  MapTracker.path_distance [first] = 0%float.
Proof. split; [apply path_distance_extend | reflexivity]. Qed.

(** ** The refinement as a whole *)

Section RefinedFacts.
Context `{MathLib}.

Lemma applyKalmanFilter_stamps (points : list point) :
  map createdAt (applyKalmanFilter points) = map createdAt points.
Proof.
  destruct points as [|first rest]; [reflexivity|].
  unfold applyKalmanFilter.
  now destruct (fold_step_smoothed (first :: rest) (Kalman.start first))
    as (outs & -> & Hc).
Qed.

Lemma thinPoints_is_sublist (points : list point) (d : number) :
  sublist (thinPoints points (Some d)) points.
Proof.
  rewrite thinPoints_greedy. destruct points as [|first rest]; [constructor|].
  apply sublist_skip, thin_from_sublist.
Qed.

End RefinedFacts.

(** X15: the three refinement stages together only drop points: the time
    stamps of the refined points are a subsequence of the time stamps of the
    points that went in, so the refined sequence is never longer than its
    input, and it is never empty when the input is not. *)
Theorem refined_stamps `{MathLib} (first : point) (rest : list point) :
  (forall points : list point,
      sublist (map createdAt (refined points)) (map createdAt points) /\
      (length (refined points) <= length points)%nat) /\
  refined (first :: rest) <> [].
Proof.
  assert (Hs : forall points : list point,
             sublist (map createdAt (refined points)) (map createdAt points)).
  { intros points. unfold refined.
    rewrite <- (applyKalmanFilter_stamps points).
    apply map_sublist. etransitivity.
    - apply thinPoints_is_sublist.
    - apply removeZigzags_is_sublist. }
  split.
  - intros points. split; [apply Hs|].
    specialize (Hs points). apply sublist_length in Hs.
    now rewrite !length_map in Hs.
  - intros Hnil. pose proof (refined_head first rest) as Hh.
    rewrite Hnil in Hh. discriminate Hh.
Qed.

(** ** Loading a day *)

Section LoadFacts.
Context `{MathLib}.
Import MapTracker Page.
Variable source : Source.
Variable world : Services.

Lemma try_block_undelivered (pg : Page) :
  delivered source pg = None ->
  exists e, try_block source world pg = (tracker pg, [], Throw e).
Proof.
  unfold delivered, try_block.
  destruct (source _) as [response|e]; [|now exists e].
  destruct (ok response); [|now eexists].
  destruct (json response) as [b|e]; [discriminate | now exists e].
Qed.

End LoadFacts.

(** X16: when the trajectory request fails, is answered with an error
    status, or has an unreadable body, [fetchMapData] shows one alert, leaves
    everything the pipeline writes as it was, sends no pipeline request, and
    ends with [loading] false. *)
Theorem fetchMapData_undelivered `{MathLib} (source : Page.Source)
    (world : MapTracker.Services) (pg : Page.Page) :
  Page.delivered source pg = None ->
  Page.fetchMapData source world pg
  = ({| Page.userId := Page.userId pg;
        Page.date := Page.date pg;
        Page.loading := false;
        Page.tracker := Page.tracker pg;
        Page.alerts := Page.alerts pg ++ [Page.alert_text] |},
     []).
Proof.
  intros Hd. unfold Page.fetchMapData.
  destruct (try_block_undelivered source world pg Hd) as (e & ->). reflexivity.
Qed.

Section SampleLoad.
Local Existing Instance Sample.engine.

(** The first page, the source answering with an error status. *)
Lemma fetchMapData_undelivered_witness :
  Page.fetchMapData source_not_ok Sample.world Page.first_page
  = ({| Page.userId := Page.userId Page.first_page;
        Page.date := Page.date Page.first_page;
        Page.loading := false;
        Page.tracker := MapTracker.initial;
        Page.alerts := [Page.alert_text] |},
     []).
Proof.
  apply (@fetchMapData_undelivered Sample.engine source_not_ok Sample.world
           Page.first_page eq_refl).
Defined.

End SampleLoad.

(** ** The snapped sequence *)

(** X18: once the snap request is answered, the snapped sequence is
    exposed whether the directions requests succeed or fail; it has one point
    for each location the service matched, so never more points than there
    were locations in the answer. *)
Theorem processPoints_snapped `{MathLib} (world : MapTracker.Services)
    (st : MapTracker.State) (rawData : list MapTracker.element)
    (found : list (option (number * number))) :
  (length (MapTracker.extract rawData) <? 2)%nat = false ->
  MapTracker.snap world (snap_locations (MapTracker.extract rawData)) = Normal found ->
  MapTracker.orsPoints (fst (fst (MapTracker.processPoints world st (Some rawData))))
  = MapTracker.snapped_points world found /\
  length (MapTracker.snapped_points world found) = length (omap id found) /\
  (length (MapTracker.snapped_points world found) <= length found)%nat.
Proof.
  intros Hlen Hsnap.
  assert (Hl : length (MapTracker.snapped_points world found) = length (omap id found))
    by (unfold MapTracker.snapped_points; now rewrite length_imap).
  split; [|split; [exact Hl|]].
  - rewrite (processPoints_enough world st rawData Hlen). cbn [fst].
    rewrite fetchORSSnap_outcome, Hsnap. cbv zeta. cbn [fst].
    now destruct (Routing.quiet world 0 _).
  - rewrite Hl. clear. induction found as [|[loc|] found IH]; cbn; lia.
Qed.

Section SampleSnapped.
Local Existing Instance Sample.engine.

(** The three fixes of the example, the directions service down: the two
    snapped points are exposed. *)
Lemma processPoints_snapped_witness :
  length (MapTracker.orsPoints
            (fst (fst (MapTracker.processPoints Sample.world_without_directions
                         MapTracker.initial (Some Sample.three_fixes)))))
  = 2%nat.
Proof.
  destruct (@processPoints_snapped Sample.engine Sample.world_without_directions
              MapTracker.initial Sample.three_fixes
              (map Some (snap_locations (MapTracker.extract Sample.three_fixes)))
              eq_refl eq_refl) as (-> & -> & _).
  vm_compute. reflexivity.
Defined.

End SampleSnapped.
